(** * sdformat: the Joint entity loader and the frame graph it wires

    A shallow embedding of [src/Joint.cc].  The joint keeps its private
    data in [JointPrivate]; the frame graph is a heap object shared between
    all the entities of a document through a [std::shared_ptr], so graphs
    live in a store indexed by pointers and every method threads that store.

    The numeric types of ignition-math ([Pose3d], [Matrix4d]) are an
    interface: nothing in [Joint.cc] looks inside a pose or a matrix. *)

From Stdlib Require Import ZArith NArith Ascii String List.
From stdpp Require Import base option list gmap strings.

Set Warnings "-register-all".

Open Scope string_scope.
Open Scope list_scope.

(** ** ignition-math: poses and homogeneous transforms *)

Class PoseMath : Type := {
  Pose3d : Type;
  Matrix4d : Type;
  (** [Pose3d::Zero] *)
  Pose3d_Zero : Pose3d;
  (** [Matrix4d::Identity] *)
  Matrix4d_Identity : Matrix4d;
  (** the converting constructor [Matrix4d(const Pose3d &)] *)
  Matrix4d_of_Pose3d : Pose3d -> Matrix4d;
  (** [operator*] *)
  Matrix4d_mul : Matrix4d -> Matrix4d -> Matrix4d;
  (** [Matrix4d::Inverse()] *)
  Matrix4d_Inverse : Matrix4d -> Matrix4d;
  (** [Matrix4d::Pose()]: decomposition into translation and rotation *)
  Matrix4d_Pose : Matrix4d -> Pose3d
}.

(** ** Outcomes of a call *)

(** Failures that the specification names for graph look-ups and pose
    resolution. *)
Inductive Failure : Type :=
| NotFound
| NoPath.

(** A call returns a value, reports a failure, or leaves the behaviour of
    the C++ program undefined. *)
Inductive Outcome (A : Type) : Type :=
| Returns (a : A)
| Fails (f : Failure)
| UndefinedBehaviour.

Arguments Returns {A} a.
Arguments Fails {A} f.
Arguments UndefinedBehaviour {A}.

(** ** sdf/Error.hh *)

(** The error codes that [Joint.cc] names; the header that declares the
    enumeration is not part of [src/].  In the words of the specification:
    [ELEMENT_INCORRECT_TYPE] is StructuralMismatch, [ATTRIBUTE_MISSING] is
    MissingRequiredAttribute, [ELEMENT_MISSING] is MissingRequiredElement,
    [ATTRIBUTE_INVALID] is InvalidEnumerationValue and
    [FUNCTION_ARGUMENT_MISSING] is MissingDependency. *)
Inductive ErrorCode : Type :=
| ATTRIBUTE_MISSING
| ATTRIBUTE_INVALID
| ELEMENT_MISSING
| ELEMENT_INCORRECT_TYPE
| FUNCTION_ARGUMENT_MISSING.

Record Error : Type := mkError {
  Code : ErrorCode;
  Message : string
}.

Definition Errors : Type := list Error.

Global Instance ErrorCode_eq_dec : EqDecision ErrorCode.
Proof. solve_decision. Defined.

Global Instance Error_eq_dec : EqDecision Error.
Proof. solve_decision. Defined.

(** ** sdf/Joint.hh: the joint types *)

Inductive JointType : Type :=
| INVALID
| BALL
| CONTINUOUS
| FIXED
| GEARBOX
| PRISMATIC
| REVOLUTE
| REVOLUTE2
| SCREW
| UNIVERSAL.

Global Instance JointType_eq_dec : EqDecision JointType.
Proof. solve_decision. Defined.

(** ** Characters: [std::tolower] in the C locale *)

Definition tolower (c : ascii) : ascii :=
  let n := N_of_ascii c in
  if ((65 <=? n) && (n <=? 90))%N then ascii_of_N (n + 32) else c.

(** [std::transform(s.begin(), s.end(), s.begin(), tolower)] *)
Fixpoint transform_tolower (s : string) : string :=
  match s with
  | EmptyString => EmptyString
  | String c s' => String (tolower c) (transform_tolower s')
  end.

(** [std::string::empty] *)
Definition string_empty (s : string) : bool :=
  match s with
  | EmptyString => true
  | String _ _ => false
  end.

(** ** The frame graph *)

Section FrameGraph.
Context `{PoseMath}.

Definition VertexId : Type := N.

Record Vertex : Type := mkVertex {
  Vertex_Name : string;
  Vertex_Data : Matrix4d;
  Vertex_Id : VertexId
}.

(** A directed edge [(from, to)] carrying the direction marker. *)
Record Edge : Type := mkEdge {
  Edge_Vertices : VertexId * VertexId;
  Edge_Data : Z
}.

(** Modelled from the spec: the graph class behind [FrameGraph] (a
    directed graph of ignition-math with [Matrix4d] vertices and [int]
    edges) is not part of [src/].  Vertices and edges are kept in
    insertion order; vertices are never removed. *)
Record FrameGraph : Type := mkFrameGraph {
  vertices : list Vertex;
  edges : list Edge
}.

Definition FrameGraph_empty : FrameGraph := mkFrameGraph [] [].

(** Modelled from the spec: a vertex receives "a fresh unique id"; the
    model takes the least id above every id in use. *)
Definition NextVertexId (g : FrameGraph) : VertexId :=
  foldr (fun v acc => N.max (N.succ (Vertex_Id v)) acc) 0%N (vertices g).

(** Modelled from the spec: [AddVertex(name, transform) -> Vertex]
    "inserts with a fresh unique id; never fails; duplicate names
    permitted, not merged". *)
Definition AddVertex (_name : string) (_data : Matrix4d) (g : FrameGraph)
  : Vertex * FrameGraph :=
  let v := mkVertex _name _data (NextVertexId g) in
  (v, mkFrameGraph (vertices g ++ [v]) (edges g)).

(** Modelled from the spec: [VertexFromId(id)] "fails with NotFound if id
    absent". *)
Definition VertexFromId (_id : VertexId) (g : FrameGraph) : option Vertex :=
  List.find (fun v => N.eqb (Vertex_Id v) _id) (vertices g).

Definition HasVertex (_id : VertexId) (g : FrameGraph) : bool :=
  bool_decide (is_Some (VertexFromId _id g)).

(** Modelled from the spec: [AddEdge((fromId, toId), direction)] "fails
    (no mutation) if either id is absent". *)
Definition AddEdge (_vertices : VertexId * VertexId) (_data : Z)
    (g : FrameGraph) : FrameGraph :=
  if HasVertex (fst _vertices) g && HasVertex (snd _vertices) g
  then mkFrameGraph (vertices g) (edges g ++ [mkEdge _vertices _data])
  else g.

(** Modelled from the spec: [Vertices(name)] gives "all vertices under
    that name, insertion order", each with its id. *)
Definition Vertices (_name : string) (g : FrameGraph)
  : list (VertexId * Vertex) :=
  map (fun v => (Vertex_Id v, v))
      (List.filter (fun v => String.eqb (Vertex_Name v) _name) (vertices g)).

(** Modelled from the spec: the vertex class of the graph is not part of
    [src/].  Writing through the reference that [VertexFromId(id)]
    returns: the first vertex carrying [_id] is replaced by its image
    under [f]; "a vertex's id is immutable; its name may be reassigned". *)
Fixpoint update_vertex (_id : VertexId) (f : Vertex -> Vertex)
    (vs : list Vertex) : list Vertex :=
  match vs with
  | [] => []
  | v :: vs' =>
      if N.eqb (Vertex_Id v) _id then f v :: vs'
      else v :: update_vertex _id f vs'
  end.

(** [VertexFromId(id).Data() = m] *)
Definition SetData (_id : VertexId) (m : Matrix4d) (g : FrameGraph)
  : FrameGraph :=
  mkFrameGraph
    (update_vertex _id
       (fun v => mkVertex (Vertex_Name v) m (Vertex_Id v)) (vertices g))
    (edges g).

(** [VertexFromId(id).SetName(n)] *)
Definition SetVertexName (_id : VertexId) (n : string) (g : FrameGraph)
  : FrameGraph :=
  mkFrameGraph
    (update_vertex _id
       (fun v => mkVertex n (Vertex_Data v) (Vertex_Id v)) (vertices g))
    (edges g).

End FrameGraph.

(** ** sdf/Element.hh: the parsed element *)

Section Element.
Context `{PoseMath}.

(** Typed values produced by the attribute-parsing layer. *)
Inductive Value : Type :=
| VString (s : string)
| VPose (p : Pose3d).

(** Modelled from the spec: [sdf::Element] is not part of [src/].  An
    element is "a kind tag, a name, a mapping of attribute-name to (typed
    value, present-or-defaulted flag), and zero or more child elements
    queryable by tag".  The name is the entry [name] of the mapping and
    the value of the element itself is the entry under the empty key, the
    key [Get] is called with to read it. *)
Inductive Element : Type := mkElement {
  GetName : string;
  attributes : gmap string (Value * bool);
  children : list Element
}.

(** Modelled from the spec: [Get<std::string>(key, default)] gives the
    typed value and its flag, or the default and [false] for a key the
    mapping does not hold. *)
Definition Get_string (e : Element) (_key _default : string)
  : string * bool :=
  match attributes e !! _key with
  | Some (VString s, flag) => (s, flag)
  | _ => (_default, false)
  end.

(** Modelled from the spec: [Get<Pose3d>(key, default)]. *)
Definition Get_Pose3d (e : Element) (_key : string) (_default : Pose3d)
  : Pose3d * bool :=
  match attributes e !! _key with
  | Some (VPose p, flag) => (p, flag)
  | _ => (_default, false)
  end.

(** Modelled from the spec: child elements are "queryable by tag";
    [GetElement] gives the first child with the tag. *)
Definition GetElement (e : Element) (_name : string) : option Element :=
  List.find (fun c => String.eqb (GetName c) _name) (children e).

Definition HasElement (e : Element) (_name : string) : bool :=
  bool_decide (is_Some (GetElement e _name)).

End Element.

(** ** sdf/JointAxis.hh *)

(** [JointAxis] and its loader are not part of [src/]: [Joint::Load] only
    creates an axis, calls [JointAxis::Load] on the child element and
    collects the diagnostics it returns. *)
Class AxisLoader `{PoseMath} : Type := {
  JointAxis : Type;
  (** [a.reset(new JointAxis()); a->Load(element)]: the loaded axis and the
      diagnostics of its load *)
  JointAxis_Load : Element -> JointAxis * Errors
}.

(** ** Utils.hh *)

Section Utils.
Context `{PoseMath}.

(** Modelled from the spec: [loadName] of [Utils] is not part of [src/];
    it extracts the identifying name, and a missing name leaves the
    empty name. *)
Definition loadName (_sdf : Element) : string * bool :=
  Get_string _sdf "name" "".

(** Modelled from the spec: [loadPose] of [Utils] is not part of [src/];
    it extracts the "optional local pose and its frame name" from the
    [pose] child.  The outputs [_pose] and [_frame] are written only when
    the element holds a pose; the result tells whether they were. *)
Definition loadPose (_sdf : Element) (_pose : Pose3d) (_frame : string)
  : bool * Pose3d * string :=
  match GetElement _sdf "pose" with
  | None => (false, _pose, _frame)
  | Some sdf =>
      let framePair := Get_string sdf "frame" "" in
      let posePair := Get_Pose3d sdf "" Pose3d_Zero in
      if snd posePair
      then (true, fst posePair, fst framePair)
      else (false, _pose, _frame)
  end.

End Utils.

(** ** The pose resolver *)

Section PoseResolver.
Context `{PoseMath}.

(** Modelled from the spec: the search of [poseInFrame] goes by "traversing
    edges in either direction".
    The edges that touch [u], each as the vertex it leads to and whether
    walking it from [u] "agrees with the stored direction": an edge
    walked from its first to its second end agrees when it is marked
    [1], walked the other way when it is marked [-1]. *)
Definition steps (u : VertexId) (g : FrameGraph)
  : list (VertexId * bool) :=
  flat_map
    (fun e =>
       let '(a, b) := Edge_Vertices e in
       (if N.eqb a u then [(b, Z.eqb (Edge_Data e) 1)] else []) ++
       (if N.eqb b u then [(a, Z.eqb (Edge_Data e) (-1))] else []))
    (edges g).

(** Modelled from the spec: one traversed edge of the search of
    [poseInFrame]; the running transform [m] is multiplied "by the
    destination vertex's payload if the traversal direction agrees with
    the stored direction, else by its inverse". *)
Definition enqueue (g : FrameGraph) (m : Matrix4d)
    (acc : list VertexId * list (VertexId * Matrix4d))
    (step : VertexId * bool)
  : list VertexId * list (VertexId * Matrix4d) :=
  let '(visited, queue) := acc in
  let '(v, agrees) := step in
  if bool_decide (v ∈ visited) then acc
  else
    match VertexFromId v g with
    | None => acc
    | Some dest =>
        let d := Vertex_Data dest in
        (visited ++ [v],
         queue ++ [(v, Matrix4d_mul m
                         (if agrees then d else Matrix4d_Inverse d))])
    end.

(** Modelled from the spec: the "breadth-first search from source to
    target vertex" of [poseInFrame]; every vertex enters the queue at
    most once, so [fuel] above the number of vertices is never used up.
    The specification leaves open what the running transform starts
    from: the search is started on the identity.  The properties below
    rest on the name resolution and on the test for equal names, not on
    the search. *)
Fixpoint search (fuel : nat) (g : FrameGraph) (target : VertexId)
    (visited : list VertexId) (queue : list (VertexId * Matrix4d))
  : option Matrix4d :=
  match fuel with
  | O => None
  | S fuel' =>
      match queue with
      | [] => None
      | (u, m) :: rest =>
          if N.eqb u target then Some m
          else
            let '(visited', queue') :=
              foldl (enqueue g m) (visited, rest) (steps u g) in
            search fuel' g target visited' queue'
      end
  end.

(** Modelled from the spec: [poseInFrame] of [Utils] is not part of
    [src/].  "Resolve each name via Vertices; if multiple matches,
    deterministically use the first inserted"; "fails with NotFound if
    either name has zero matches"; equal names return "identity without
    traversal, checked before search"; "fails with NoPath if
    unconnected". *)
Definition poseInFrame (_src _dst : string) (g : FrameGraph)
  : Outcome Pose3d :=
  match Vertices _src g, Vertices _dst g with
  | (s, _) :: _, (t, _) :: _ =>
      if String.eqb _src _dst then Returns (Matrix4d_Pose Matrix4d_Identity)
      else
        match search (S (length (vertices g))) g t [s]
                     [(s, Matrix4d_Identity)] with
        | Some m => Returns (Matrix4d_Pose m)
        | None => Fails NoPath
        end
  | _, _ => Fails NotFound
  end.

End PoseResolver.

(** ** sdf/Joint.hh, src/Joint.cc *)

(** A [std::shared_ptr<FrameGraph>] that is not null. *)
Definition GraphPtr : Type := positive.

Section Joint.
Context `{AxisLoader}.

(** The graphs alive in the program, by pointer. *)
Abbreviation Store := (gmap GraphPtr FrameGraph).

Record JointPrivate : Type := mkJointPrivate {
  (** Name of the parent link. *)
  parentLinkName : string;
  (** Name of the child link. *)
  childLinkName : string;
  (** the joint type. *)
  type : JointType;
  (** Pose of the joint *)
  pose : Pose3d;
  (** Frame of the pose. *)
  poseFrame : string;
  (** Joint axis *)
  axis : option JointAxis * option JointAxis;
  (** Pointer to the frame graph. *)
  frameGraph : option GraphPtr;
  (** Id of the frame for this object *)
  frameVertexId : VertexId;
  (** The SDF element pointer used during load. *)
  sdf : option Element
}.

(** Assignments to one member of [*this->dataPtr]. *)
Definition set_parentLinkName (x : string) (d : JointPrivate) :=
  mkJointPrivate x (childLinkName d) (type d) (pose d) (poseFrame d)
    (axis d) (frameGraph d) (frameVertexId d) (sdf d).
Definition set_childLinkName (x : string) (d : JointPrivate) :=
  mkJointPrivate (parentLinkName d) x (type d) (pose d) (poseFrame d)
    (axis d) (frameGraph d) (frameVertexId d) (sdf d).
Definition set_type (x : JointType) (d : JointPrivate) :=
  mkJointPrivate (parentLinkName d) (childLinkName d) x (pose d)
    (poseFrame d) (axis d) (frameGraph d) (frameVertexId d) (sdf d).
Definition set_pose (x : Pose3d) (d : JointPrivate) :=
  mkJointPrivate (parentLinkName d) (childLinkName d) (type d) x
    (poseFrame d) (axis d) (frameGraph d) (frameVertexId d) (sdf d).
Definition set_poseFrame (x : string) (d : JointPrivate) :=
  mkJointPrivate (parentLinkName d) (childLinkName d) (type d) (pose d) x
    (axis d) (frameGraph d) (frameVertexId d) (sdf d).
Definition set_axis (x : option JointAxis * option JointAxis)
    (d : JointPrivate) :=
  mkJointPrivate (parentLinkName d) (childLinkName d) (type d) (pose d)
    (poseFrame d) x (frameGraph d) (frameVertexId d) (sdf d).
Definition set_frameGraph (x : option GraphPtr) (d : JointPrivate) :=
  mkJointPrivate (parentLinkName d) (childLinkName d) (type d) (pose d)
    (poseFrame d) (axis d) x (frameVertexId d) (sdf d).
Definition set_frameVertexId (x : VertexId) (d : JointPrivate) :=
  mkJointPrivate (parentLinkName d) (childLinkName d) (type d) (pose d)
    (poseFrame d) (axis d) (frameGraph d) x (sdf d).
Definition set_sdf (x : option Element) (d : JointPrivate) :=
  mkJointPrivate (parentLinkName d) (childLinkName d) (type d) (pose d)
    (poseFrame d) (axis d) (frameGraph d) (frameVertexId d) x.

(** A member function: it reads and writes the private data of the joint
    and the graphs of the store. *)
Definition Method (A : Type) : Type :=
  JointPrivate -> Store -> Outcome (A * JointPrivate * Store).

(** [*this->dataPtr->frameGraph] *)
Definition deref (p : option GraphPtr) (σ : Store) : Outcome FrameGraph :=
  match p with
  | None => UndefinedBehaviour
  | Some fg =>
      match σ !! fg with
      | Some g => Returns g
      | None => UndefinedBehaviour
      end
  end.

(** [Joint::Joint()]: "Create the frame graph for the joint, and add a
    node for the joint." *)
Definition Joint_new (σ : Store) : JointPrivate * Store :=
  let fg := fresh (dom σ) in
  let '(v, g) := AddVertex "" Matrix4d_Identity FrameGraph_empty in
  (mkJointPrivate "" "" INVALID Pose3d_Zero "" (None, None)
     (Some fg) (Vertex_Id v) None,
   <[fg := g]> σ).

(** [Joint::Load], lines 114 to 163: the reads of the name, the two link
    names, the pose and the axes, made once the element is known to be a
    [<joint>].  The result is the joint name, the private data and the
    diagnostics so far. *)
Definition Load_elements (_sdf : Element) (this : JointPrivate)
    (errors : Errors) : string * JointPrivate * Errors :=
  (* Read the joints's name *)
  let '(jointName, named) := loadName _sdf in
  let errors :=
    if named then errors
    else errors ++ [mkError ATTRIBUTE_MISSING
           "A joint name is required, but the name is not set."] in
  (* Read the parent link name *)
  let parentPair := Get_string _sdf "parent" "" in
  let '(this, errors) :=
    if snd parentPair
    then (set_parentLinkName (fst parentPair) this, errors)
    else (this, errors ++ [mkError ELEMENT_MISSING
                             "The parent element is missing."]) in
  (* Read the child link name *)
  let childPair := Get_string _sdf "child" "" in
  let '(this, errors) :=
    if snd childPair
    then (set_childLinkName (fst childPair) this, errors)
    else (this, errors ++ [mkError ELEMENT_MISSING
                             "The child element is missing."]) in
  (* Load the pose. Ignore the return value since the pose is optional. *)
  let '(_, pose', poseFrame') :=
    loadPose _sdf (pose this) (poseFrame this) in
  let this := set_poseFrame poseFrame' (set_pose pose' this) in
  (* Use the parent link frame as the pose frame if the poseFrame
     attribute is empty. *)
  let this :=
    if string_empty (poseFrame this)
    then set_poseFrame (childLinkName this) this
    else this in
  (* [HasElement] and the [GetElement] under it, in one match *)
  let '(this, errors) :=
    match GetElement _sdf "axis" with
    | Some e =>
        let '(a, axisErrors) := JointAxis_Load e in
        (set_axis (Some a, snd (axis this)) this, errors ++ axisErrors)
    | None => (this, errors)
    end in
  let '(this, errors) :=
    match GetElement _sdf "axis2" with
    | Some e =>
        let '(a, axisErrors) := JointAxis_Load e in
        (set_axis (fst (axis this), Some a) this, errors ++ axisErrors)
    | None => (this, errors)
    end in
  (jointName, this, errors).

(** [Joint::Load], lines 165 to 206: "Read the type". *)
Definition Load_type (_sdf : Element) (this : JointPrivate)
    (errors : Errors) : JointPrivate * Errors :=
  let typePair := Get_string _sdf "type" "" in
  if snd typePair then
    let first := transform_tolower (fst typePair) in
    if String.eqb first "ball" then (set_type BALL this, errors)
    else if String.eqb first "continuous"
    then (set_type CONTINUOUS this, errors)
    else if String.eqb first "fixed" then (set_type FIXED this, errors)
    else if String.eqb first "gearbox"
    then (set_type GEARBOX this, errors)
    else if String.eqb first "prismatic"
    then (set_type PRISMATIC this, errors)
    else if String.eqb first "revolute"
    then (set_type REVOLUTE this, errors)
    else if String.eqb first "revolute2"
    then (set_type REVOLUTE2 this, errors)
    else if String.eqb first "screw" then (set_type SCREW this, errors)
    else if String.eqb first "universal"
    then (set_type UNIVERSAL this, errors)
    else
      (set_type INVALID this,
       errors ++ [mkError ATTRIBUTE_INVALID
         ("Joint type of " +:+ first +:+
          " is invalid. Refer to the SDF documentation for a list of " +:+
          "valid joint types")])
  else
    (this, errors ++ [mkError ATTRIBUTE_MISSING
                        "A joint type is required, but is not set."]).

(** [Joint::Load], lines 208 to 237: the vertex and the two edges of the
    joint in the frame graph handed in.  [parentVertices.begin()] is
    dereferenced whatever the lookup found; on an empty lookup result it
    is the past-the-end iterator. *)
Definition Load_wire (jointName : string) (_frameGraph : option GraphPtr)
    (errors : Errors) : Method Errors :=
  fun this σ =>
    match _frameGraph with
    | Some fg =>
        match σ !! fg with
        | None => UndefinedBehaviour (* no shared pointer is dangling *)
        | Some g =>
            (* Add a vertex in the frame graph for this joint. *)
            let '(v, g) :=
              AddVertex jointName (Matrix4d_of_Pose3d (pose this)) g in
            let this := set_frameVertexId (Vertex_Id v) this in
            (* Get the parent vertex based on this joints's pose frame
               name. *)
            let parentVertices := Vertices (poseFrame this) g in
            match parentVertices with
            | [] => UndefinedBehaviour
            | (first, _) :: _ =>
                (* Connect the parent to the child *)
                let g := AddEdge (first, frameVertexId this) (-1) g in
                (* Connect the child to the parent *)
                let g := AddEdge (frameVertexId this, first) 1 g in
                let this := set_frameGraph (Some fg) this in
                Returns (errors, this, <[fg := g]> σ)
            end
        end
    | None =>
        Returns
          (errors ++ [mkError FUNCTION_ARGUMENT_MISSING
             "A frame graph is required to compute pose information."],
           this, σ)
    end.

(** [Errors Joint::Load(ElementPtr _sdf,
                        std::shared_ptr<FrameGraph> _frameGraph)]: the
    kind check of lines 100 to 112, then the three blocks above. *)
Definition Load (_sdf : Element) (_frameGraph : option GraphPtr)
  : Method Errors :=
  fun this σ =>
    let errors : Errors := [] in
    let this := set_sdf (Some _sdf) this in
    (* Check that the provided SDF element is a <joint> *)
    if negb (String.eqb (GetName _sdf) "joint") then
      Returns
        (errors ++ [mkError ELEMENT_INCORRECT_TYPE
           ("Attempting to load a Joint, but the provided SDF element " +:+
            "is not a <joint>.")],
         this, σ)
    else
      let '(jointName, this, errors) := Load_elements _sdf this errors in
      let '(this, errors) := Load_type _sdf this errors in
      Load_wire jointName _frameGraph errors this σ.

(** [const std::string &Joint::Name() const] *)
Definition Name (this : JointPrivate) (σ : Store) : Outcome string :=
  match deref (frameGraph this) σ with
  | Returns g =>
      match VertexFromId (frameVertexId this) g with
      | Some v => Returns (Vertex_Name v)
      | None => Fails NotFound
      end
  | Fails f => Fails f
  | UndefinedBehaviour => UndefinedBehaviour
  end.

(** [void Joint::SetName(const std::string &_name) const] *)
Definition SetName (_name : string) : Method unit :=
  fun this σ =>
    match frameGraph this, deref (frameGraph this) σ with
    | Some fg, Returns g =>
        match VertexFromId (frameVertexId this) g with
        | Some _ =>
            Returns (tt, this,
                     <[fg := SetVertexName (frameVertexId this) _name g]> σ)
        | None => Fails NotFound
        end
    | _, Fails f => Fails f
    | _, _ => UndefinedBehaviour
    end.

(** [JointType Joint::Type() const] *)
Definition Type_ (this : JointPrivate) : JointType := type this.


(** [const std::string &Joint::ParentLinkName() const] *)
Definition ParentLinkName (this : JointPrivate) : string :=
  parentLinkName this.

(** [void Joint::SetParentLinkName(const std::string &_name) const] *)
Definition SetParentLinkName (_name : string) : Method unit :=
  fun this σ => Returns (tt, set_parentLinkName _name this, σ).

(** [const std::string &Joint::ChildLinkName() const] *)
Definition ChildLinkName (this : JointPrivate) : string :=
  childLinkName this.

(** [void Joint::SetChildLinkName(const std::string &_name) const] *)
Definition SetChildLinkName (_name : string) : Method unit :=
  fun this σ => Returns (tt, set_childLinkName _name this, σ).

(** [const JointAxis *Joint::Axis(const unsigned int _index) const]:
    [axis[std::min(_index, 1u)].get()] *)
Definition Axis (_index : N) (this : JointPrivate) : option JointAxis :=
  if N.eqb (N.min _index 1) 0 then fst (axis this) else snd (axis this).

(** [const ignition::math::Pose3d &Joint::Pose() const] *)
Definition Pose (this : JointPrivate) : Pose3d := pose this.

(** [const std::string &Joint::PoseFrame() const] *)
Definition PoseFrame (this : JointPrivate) : string := poseFrame this.

(** [Pose3d Joint::PoseInFrame(const std::string &_frame) const] *)
Definition PoseInFrame (_frame : string) (this : JointPrivate) (σ : Store)
  : Outcome Pose3d :=
  match Name this σ, deref (frameGraph this) σ with
  | Returns name, Returns g =>
      poseInFrame name
        (if string_empty _frame then PoseFrame this else _frame) g
  | Fails f, _ => Fails f
  | _, _ => UndefinedBehaviour
  end.

(** [void Joint::SetPose(const Pose3d &_pose)] *)
Definition SetPose (_pose : Pose3d) : Method unit :=
  fun this σ =>
    match frameGraph this, deref (frameGraph this) σ with
    | Some fg, Returns g =>
        match VertexFromId (frameVertexId this) g with
        | Some _ =>
            Returns
              (tt, set_pose _pose this,
               <[fg := SetData (frameVertexId this)
                         (Matrix4d_of_Pose3d _pose) g]> σ)
        | None => Fails NotFound
        end
    | _, Fails f => Fails f
    | _, _ => UndefinedBehaviour
    end.

(** [bool Joint::SetPoseFrame(const std::string &_frame)] *)
Definition SetPoseFrame (_frame : string) : Method bool :=
  fun this σ =>
    if string_empty _frame then Returns (false, this, σ)
    else Returns (true, set_poseFrame _frame this, σ).

(** [sdf::ElementPtr Joint::Element() const] *)
Definition Joint_Element (this : JointPrivate) : option Element := sdf this.

End Joint.

(** ** Predicates the properties are stated with *)

Section Predicates.
Context `{PoseMath}.

(** The graph holds an edge from [a] to [b] marked [d]. *)
Definition has_edge (a b : VertexId) (d : Z) (g : FrameGraph) : bool :=
  existsb
    (fun e => N.eqb (fst (Edge_Vertices e)) a
              && N.eqb (snd (Edge_Vertices e)) b
              && Z.eqb (Edge_Data e) d)
    (edges g).

(** A complementary forward/backward pair of edges between [p] and [v]:
    one edge each way, with opposite markers. *)
Definition edge_pair (p v : VertexId) (g : FrameGraph) : bool :=
  (has_edge p v (-1) g && has_edge v p 1 g)
  || (has_edge p v 1 g && has_edge v p (-1) g).

(** Some vertex registered under [name] is joined to [v] by such a
    pair. *)
Definition wired_to_name (name : string) (v : VertexId) (g : FrameGraph)
  : bool :=
  existsb (fun p => edge_pair (fst p) v g) (Vertices name g).

(** The text [t] occurs in the message [m]. *)
Fixpoint carries (t m : string) : bool :=
  String.prefix t m
  || match m with
     | EmptyString => false
     | String _ m' => carries t m'
     end.

(** Equality of strings up to the case of their letters. *)
Definition eqb_ignore_case (a b : string) : bool :=
  String.eqb (transform_tolower a) (transform_tolower b).

(** The fixed enumeration of joint types, by name. *)
Definition enumeration : list (string * JointType) :=
  [("ball", BALL); ("continuous", CONTINUOUS); ("fixed", FIXED);
   ("gearbox", GEARBOX); ("prismatic", PRISMATIC); ("revolute", REVOLUTE);
   ("revolute2", REVOLUTE2); ("screw", SCREW); ("universal", UNIVERSAL)].

(** The entry of the enumeration that the text matches without regard
    to case, if any. *)
Definition matched (text : string) : option (string * JointType) :=
  List.find (fun entry => eqb_ignore_case text (fst entry)) enumeration.

(** Classification as the specification words it: the enumeration value
    whose name matches the text without regard to case, and the
    [INVALID] sentinel when none does. *)
Definition classify (text : string) : JointType :=
  match matched text with
  | Some entry => snd entry
  | None => INVALID
  end.

(** The diagnostic of [Load] for a type string outside the enumeration,
    as a function of the text placed in it. *)
Definition invalid_type_error (text : string) : Error :=
  mkError ATTRIBUTE_INVALID
    ("Joint type of " +:+ text +:+
     " is invalid. Refer to the SDF documentation for a list of " +:+
     "valid joint types").

Definition missing_graph_error : Error :=
  mkError FUNCTION_ARGUMENT_MISSING
    "A frame graph is required to compute pose information.".

Definition incorrect_type_error : Error :=
  mkError ELEMENT_INCORRECT_TYPE
    ("Attempting to load a Joint, but the provided SDF element " +:+
     "is not a <joint>.").

End Predicates.

Section JointPredicates.
Context `{AxisLoader}.

(** The joint points to a live graph that holds its vertex. *)
Definition owns_vertex (this : JointPrivate)
    (σ : gmap GraphPtr FrameGraph) : bool :=
  match frameGraph this with
  | Some fg =>
      match σ !! fg with
      | Some g => HasVertex (frameVertexId this) g
      | None => false
      end
  | None => false
  end.


(** The payload of the vertex of the joint in its graph. *)
Definition own_payload (this : JointPrivate)
    (σ : gmap GraphPtr FrameGraph) : option Matrix4d :=
  match frameGraph this with
  | Some fg =>
      match σ !! fg with
      | Some g => Vertex_Data <$> VertexFromId (frameVertexId this) g
      | None => None
      end
  | None => None
  end.

End JointPredicates.

Section LoadPredicates.
Context `{AxisLoader}.

(** The diagnostic of [Load] for a block of the element, one function per
    block, each of the element alone. *)
Definition name_diagnostics (e : Element) : Errors :=
  if snd (loadName e) then []
  else [mkError ATTRIBUTE_MISSING
          "A joint name is required, but the name is not set."].

Definition parent_diagnostics (e : Element) : Errors :=
  if snd (Get_string e "parent" "") then []
  else [mkError ELEMENT_MISSING "The parent element is missing."].

Definition child_diagnostics (e : Element) : Errors :=
  if snd (Get_string e "child" "") then []
  else [mkError ELEMENT_MISSING "The child element is missing."].

(** The diagnostics that the load of the axis under the tag [tag]
    reports; none when the element has no such child. *)
Definition axis_diagnostics (e : Element) (tag : string) : Errors :=
  match GetElement e tag with
  | Some c => snd (JointAxis_Load c)
  | None => []
  end.

Definition type_diagnostics (e : Element) : Errors :=
  if snd (Get_string e "type" "") then
    match matched (fst (Get_string e "type" "")) with
    | Some _ => []
    | None =>
        [invalid_type_error
           (transform_tolower (fst (Get_string e "type" "")))]
    end
  else [mkError ATTRIBUTE_MISSING
          "A joint type is required, but is not set."].

Definition graph_diagnostics (fg : option GraphPtr) : Errors :=
  match fg with
  | Some _ => []
  | None => [missing_graph_error]
  end.

(** The blocks in the order [Load] runs them. *)
Definition Load_diagnostics (e : Element) (fg : option GraphPtr) : Errors :=
  name_diagnostics e ++ parent_diagnostics e ++ child_diagnostics e
  ++ axis_diagnostics e "axis" ++ axis_diagnostics e "axis2"
  ++ type_diagnostics e ++ graph_diagnostics fg.

(** The axis that a load leaves in a slot: the one loaded from the child
    under [tag], or else the one the slot held. *)
Definition loaded_axis (e : Element) (tag : string)
    (before : option JointAxis) : option JointAxis :=
  match GetElement e tag with
  | Some c => Some (fst (JointAxis_Load c))
  | None => before
  end.

(** The child link name of the joint once the element is read. *)
Definition loaded_child (e : Element) (this : JointPrivate) : string :=
  if snd (Get_string e "child" "") then fst (Get_string e "child" "")
  else childLinkName this.

(** The pose frame of the joint once the element is read. *)
Definition loaded_frame (e : Element) (this : JointPrivate) : string :=
  let parsed := snd (loadPose e (pose this) (poseFrame this)) in
  if string_empty parsed then loaded_child e this else parsed.

(** Some vertex of the graph carries the name [frame], or the joint does. *)
Definition frame_registered (jointName frame : string) (g : FrameGraph)
  : bool :=
  existsb (fun v => String.eqb (Vertex_Name v) frame) (vertices g)
  || String.eqb jointName frame.

(** The name under which the graph holds the vertex of the joint. *)
Definition own_name (this : JointPrivate) (σ : gmap GraphPtr FrameGraph)
  : option string :=
  match frameGraph this with
  | Some fg =>
      match σ !! fg with
      | Some g => Vertex_Name <$> VertexFromId (frameVertexId this) g
      | None => None
      end
  | None => None
  end.

(** The two joints hold the same vertex of the same graph. *)
Definition same_vertex (this that : JointPrivate) : bool :=
  bool_decide (frameGraph this = frameGraph that)
  && N.eqb (frameVertexId this) (frameVertexId that).

End LoadPredicates.

(** ** A concrete carrier to run the model on

    Pure translations with integer coordinates: a pose is its offset, the
    transform of a pose is the same offset, transforms compose by adding
    offsets.  Axes are kept as the raw element and their load reports
    nothing. *)

Module Translations.

#[export] Instance math : PoseMath := {|
  Pose3d := Z * Z * Z;
  Matrix4d := Z * Z * Z;
  Pose3d_Zero := (0, 0, 0)%Z;
  Matrix4d_Identity := (0, 0, 0)%Z;
  Matrix4d_of_Pose3d := fun p => p;
  Matrix4d_mul := fun '(a, b, c) '(x, y, z) => (a + x, b + y, c + z)%Z;
  Matrix4d_Inverse := fun '(a, b, c) => (- a, - b, - c)%Z;
  Matrix4d_Pose := fun m => m
|}.

#[export] Instance axes : AxisLoader := {|
  JointAxis := Element;
  JointAxis_Load := fun e => (e, [])
|}.

(** A present string entry of an element. *)
Definition str (s : string) : Value * bool := (VString s, true).

(** [<joint name="j" type="..."><parent>A</parent><child>B</child></joint>] *)
Definition joint_AB (type : string) : Element :=
  mkElement "joint"
    (list_to_map [("name", str "j"); ("parent", str "A");
                  ("child", str "B"); ("type", str type)])
    [].

(** The same joint with [<pose frame="A">1 2 3</pose>]. *)
Definition joint_AB_posed : Element :=
  mkElement "joint"
    (list_to_map [("name", str "j"); ("parent", str "A");
                  ("child", str "B"); ("type", str "fixed")])
    [mkElement "pose"
       (list_to_map [("", (VPose (1, 2, 3)%Z, true)); ("frame", str "A")])
       []].

(** [<joint name="j" type="fixed"><parent>A</parent></joint>]: no child
    link and no pose. *)
Definition joint_no_child : Element :=
  mkElement "joint"
    (list_to_map [("name", str "j"); ("parent", str "A");
                  ("type", str "fixed")])
    [].

(** [<link name="l"/>] *)
Definition link_element : Element :=
  mkElement "link" (list_to_map [("name", str "l")]) [].

(** A document graph with the frames of the links [A] and [B]. *)
Definition graph_AB : FrameGraph :=
  snd (AddVertex "B" (0, 0, 1)%Z
         (snd (AddVertex "A" (0, 0, 0)%Z FrameGraph_empty))).

(** The document graph lives at pointer [1]; the joint is constructed
    next to it. *)
Definition store_AB : gmap GraphPtr FrameGraph := {[ 1%positive := graph_AB ]}.

Definition store_empty_graph : gmap GraphPtr FrameGraph :=
  {[ 1%positive := FrameGraph_empty ]}.

Definition fresh_joint (σ : gmap GraphPtr FrameGraph) : JointPrivate :=
  fst (Joint_new σ).

Definition fresh_store (σ : gmap GraphPtr FrameGraph)
  : gmap GraphPtr FrameGraph :=
  snd (Joint_new σ).

(** What a call returned, or [d] if it did not return. *)
Definition returned {A : Type} (d : A) (o : Outcome A) : A :=
  match o with
  | Returns a => a
  | _ => d
  end.

(** The joint from [A] to [B] loaded into the document graph, evaluated:
    the diagnostics, the joint and the store that [Load] returns. *)
Definition loaded_AB : Errors * JointPrivate * gmap GraphPtr FrameGraph :=
  Eval vm_compute in
    returned ([], fresh_joint store_AB, fresh_store store_AB)
      (Load (joint_AB "fixed") (Some 1%positive) (fresh_joint store_AB)
         (fresh_store store_AB)).

End Translations.

(** ** More concrete inputs: two joints in one document graph *)

Module Scenes.
Import Translations.

(** [<joint name="k" type="Revolute"><parent>B</parent><child>A</child>
    <axis/></joint>] *)
Definition joint_BA_axis : Element :=
  mkElement "joint"
    (list_to_map [("name", str "k"); ("parent", str "B");
                  ("child", str "A"); ("type", str "Revolute")])
    [mkElement "axis" ∅ []].

(** [<joint name="B" type="fixed"><parent>A</parent><child>B</child>
    </joint>]: a joint named like its child link. *)
Definition joint_named_B : Element :=
  mkElement "joint"
    (list_to_map [("name", str "B"); ("parent", str "A");
                  ("child", str "B"); ("type", str "fixed")])
    [].

(** The first joint, as its load into the document graph left it. *)
Definition first_joint : JointPrivate := snd (fst loaded_AB).

(** A second joint, constructed in the store that the load of the first
    one left. *)
Definition second_joint : JointPrivate :=
  Eval vm_compute in fst (Joint_new (snd loaded_AB)).

Definition second_store : gmap GraphPtr FrameGraph :=
  Eval vm_compute in snd (Joint_new (snd loaded_AB)).

(** The second joint loaded into the document graph, evaluated. *)
Definition loaded_BA : Errors * JointPrivate * gmap GraphPtr FrameGraph :=
  Eval vm_compute in
    returned ([], second_joint, second_store)
      (Load joint_BA_axis (Some 1%positive) second_joint second_store).

(** The joint from [A] to [B] loaded without a graph, evaluated. *)
Definition loaded_AB_alone
  : Errors * JointPrivate * gmap GraphPtr FrameGraph :=
  Eval vm_compute in
    returned ([], fresh_joint ∅, fresh_store ∅)
      (Load (joint_AB "fixed") None (fresh_joint ∅) (fresh_store ∅)).

(** The document graph as the load of the first joint left it. *)
Definition graph_after_first : FrameGraph :=
  Eval vm_compute in default FrameGraph_empty (second_store !! 1%positive).

(** The joint without child link loaded without a graph, evaluated. *)
Definition loaded_no_child
  : Errors * JointPrivate * gmap GraphPtr FrameGraph :=
  Eval vm_compute in
    returned ([], fresh_joint ∅, fresh_store ∅)
      (Load joint_no_child None (fresh_joint ∅) (fresh_store ∅)).

End Scenes.

(** * Properties *)

(** ** The frame graph *)

Section FrameGraphFacts.
Context `{PoseMath}.

Lemma find_id_elem_of (i : VertexId) (vs : list Vertex) (v : Vertex) :
  v ∈ vs -> Vertex_Id v = i ->
  is_Some (List.find (fun w => N.eqb (Vertex_Id w) i) vs).
Proof.
  intros Hin Hid. induction Hin as [v vs|v w vs _ IH]; simpl.
  - rewrite Hid, N.eqb_refl. eauto.
  - destruct (N.eqb (Vertex_Id w) i); eauto.
Qed.

Lemma HasVertex_elem_of (v : Vertex) (g : FrameGraph) :
  v ∈ vertices g -> HasVertex (Vertex_Id v) g = true.
Proof.
  intros Hin. unfold HasVertex, VertexFromId.
  apply bool_decide_eq_true. by eapply find_id_elem_of.
Qed.

(** Every pair that [Vertices] returns is a vertex of the graph under
    its own id. *)
Lemma Vertices_elem_of (name : string) (g : FrameGraph)
    (p : VertexId * Vertex) :
  p ∈ Vertices name g ->
  snd p ∈ vertices g /\ fst p = Vertex_Id (snd p)
  /\ Vertex_Name (snd p) = name.
Proof.
  unfold Vertices. intros Hin.
  apply list_elem_of_fmap in Hin as (v & -> & Hv).
  apply list_elem_of_In, filter_In in Hv as [Hv Hname].
  apply list_elem_of_In in Hv. apply String.eqb_eq in Hname. done.
Qed.

Lemma Vertices_head_HasVertex name g first v rest :
  Vertices name g = (first, v) :: rest -> HasVertex first g = true.
Proof.
  intros Heq.
  destruct (Vertices_elem_of name g (first, v)) as (Hin & Hid & _).
  { rewrite Heq. left. }
  simpl in *. subst first. by apply HasVertex_elem_of.
Qed.

(** The id that [AddVertex] assigns is above every id in use. *)
Lemma NextVertexId_fresh (g : FrameGraph) (v : Vertex) :
  v ∈ vertices g -> (Vertex_Id v < NextVertexId g)%N.
Proof.
  unfold NextVertexId. induction 1 as [v vs|v w vs _ IH]; simpl; lia.
Qed.

Lemma AddVertex_HasVertex name m g :
  HasVertex (Vertex_Id (fst (AddVertex name m g))) (snd (AddVertex name m g))
  = true.
Proof.
  apply HasVertex_elem_of. simpl. apply elem_of_app. right. left.
Qed.

Lemma has_edge_app a b d vs es es' :
  has_edge a b d (mkFrameGraph vs (es ++ es'))
  = has_edge a b d (mkFrameGraph vs es)
    || has_edge a b d (mkFrameGraph vs es').
Proof. unfold has_edge. simpl. apply existsb_app. Qed.

(** The vertex written through [VertexFromId] is read back with its new
    contents; the other ids read what they read before. *)
Lemma find_update_vertex_eq (i : VertexId) (f : Vertex -> Vertex)
    (vs : list Vertex) (v : Vertex) :
  (forall w, Vertex_Id (f w) = Vertex_Id w) ->
  List.find (fun w => N.eqb (Vertex_Id w) i) vs = Some v ->
  List.find (fun w => N.eqb (Vertex_Id w) i) (update_vertex i f vs)
  = Some (f v).
Proof.
  intros Hid. induction vs as [|w vs IH]; simpl; [done|].
  destruct (N.eqb (Vertex_Id w) i) eqn:Hw; simpl.
  - intros [= ->]. by rewrite Hid, Hw.
  - rewrite Hw. apply IH.
Qed.

Lemma find_update_vertex_ne (i j : VertexId) (f : Vertex -> Vertex)
    (vs : list Vertex) :
  (forall w, Vertex_Id (f w) = Vertex_Id w) -> i <> j ->
  List.find (fun w => N.eqb (Vertex_Id w) j) (update_vertex i f vs)
  = List.find (fun w => N.eqb (Vertex_Id w) j) vs.
Proof.
  intros Hid Hij. induction vs as [|w vs IH]; simpl; [done|].
  destruct (N.eqb (Vertex_Id w) i) eqn:Hw; simpl.
  - rewrite Hid. apply N.eqb_eq in Hw.
    destruct (N.eqb (Vertex_Id w) j) eqn:Hj; [|done].
    apply N.eqb_eq in Hj. congruence.
  - by rewrite IH.
Qed.

Lemma VertexFromId_SetData_eq i m g v :
  VertexFromId i g = Some v ->
  VertexFromId i (SetData i m g)
  = Some (mkVertex (Vertex_Name v) m (Vertex_Id v)).
Proof.
  unfold VertexFromId, SetData. simpl. intros Hv.
  by apply (find_update_vertex_eq i
              (fun v => mkVertex (Vertex_Name v) m (Vertex_Id v))).
Qed.

Lemma VertexFromId_SetData_ne i j m g :
  i <> j -> VertexFromId j (SetData i m g) = VertexFromId j g.
Proof.
  unfold VertexFromId, SetData. simpl. intros Hij.
  by apply find_update_vertex_ne.
Qed.


Lemma prefix_append (t b : string) : String.prefix t (t +:+ b) = true.
Proof.
  induction t as [|c t IH]; simpl; [by destruct b|].
  by destruct (ascii_dec c c).
Qed.

Lemma carries_prefix (t m : string) :
  String.prefix t m = true -> carries t m = true.
Proof. intros Hp. destruct m; cbn [carries]; by rewrite Hp. Qed.

(** A message built around a text carries it. *)
Lemma carries_append (a t b : string) : carries t (a +:+ t +:+ b) = true.
Proof.
  induction a as [|c a IH].
  - change ("" +:+ t +:+ b) with (t +:+ b).
    apply carries_prefix, prefix_append.
  - change (String c a +:+ t +:+ b) with (String c (a +:+ t +:+ b)).
    simpl. rewrite IH. apply orb_true_r.
Qed.

End FrameGraphFacts.

(** ** Loading *)

(** Reduction of member reads over member assignments, and of nothing
    else. *)
Ltac members :=
  cbn [fst snd parentLinkName childLinkName type pose poseFrame axis
       frameGraph frameVertexId sdf set_parentLinkName set_childLinkName
       set_type set_pose set_poseFrame set_axis set_frameGraph
       set_frameVertexId set_sdf] in *.

Section LoadFacts.
Context `{AxisLoader}.

(** What [Load_elements] leaves in the members of the joint. *)
Lemma Load_elements_members (e : Element) (this : JointPrivate)
    (errs : Errors) :
  let this' := snd (fst (Load_elements e this errs)) in
  let parsed := snd (loadPose e (pose this) (poseFrame this)) in
  fst (fst (Load_elements e this errs)) = fst (loadName e)
  /\ childLinkName this'
     = (if snd (Get_string e "child" "") then fst (Get_string e "child" "")
        else childLinkName this)
  /\ parentLinkName this'
     = (if snd (Get_string e "parent" "") then fst (Get_string e "parent" "")
        else parentLinkName this)
  /\ poseFrame this'
     = (if string_empty parsed then childLinkName this' else parsed)
  /\ pose this' = snd (fst (loadPose e (pose this) (poseFrame this)))
  /\ type this' = type this
  /\ frameGraph this' = frameGraph this
  /\ frameVertexId this' = frameVertexId this
  /\ sdf this' = sdf this.
Proof.
  unfold Load_elements.
  destruct (loadName e) as [n named].
  destruct (Get_string e "parent" "") as [pn [|]];
    destruct (Get_string e "child" "") as [cn [|]]; members;
    destruct (loadPose e (pose this) (poseFrame this)) as [[ok p] f];
    members; destruct (string_empty f) eqn:Hf; members;
    destruct (GetElement e "axis") as [a1|];
    try destruct (JointAxis_Load a1) as [? ?];
    destruct (GetElement e "axis2") as [a2|];
    try destruct (JointAxis_Load a2) as [? ?];
    members; rewrite ?Hf; done.
Qed.

(** [Load_type] on a type string that is present: the chain of
    comparisons is the case-insensitive match against the enumeration. *)
Lemma Load_type_present (e : Element) (this : JointPrivate) (errs : Errors) :
  snd (Get_string e "type" "") = true ->
  Load_type e this errs
  = match matched (fst (Get_string e "type" "")) with
    | Some entry => (set_type (snd entry) this, errs)
    | None =>
        (set_type INVALID this,
         errs ++ [invalid_type_error
                    (transform_tolower (fst (Get_string e "type" "")))])
    end.
Proof.
  intros Hpresent. unfold Load_type. rewrite Hpresent.
  destruct (Get_string e "type" "") as [text flag].
  cbn [fst snd]. unfold matched, enumeration, eqb_ignore_case.
  cbn [List.find fst snd].
  change (transform_tolower "ball") with "ball".
  change (transform_tolower "continuous") with "continuous".
  change (transform_tolower "fixed") with "fixed".
  change (transform_tolower "gearbox") with "gearbox".
  change (transform_tolower "prismatic") with "prismatic".
  change (transform_tolower "revolute") with "revolute".
  change (transform_tolower "revolute2") with "revolute2".
  change (transform_tolower "screw") with "screw".
  change (transform_tolower "universal") with "universal".
  generalize (transform_tolower text). intros low.
  repeat match goal with
         | |- context [String.eqb low ?n] => destruct (String.eqb low n)
         end; reflexivity.
Qed.

(** [Load_type] touches the type member only. *)
Lemma Load_type_members (e : Element) (this : JointPrivate) (errs : Errors) :
  let this' := fst (Load_type e this errs) in
  parentLinkName this' = parentLinkName this
  /\ childLinkName this' = childLinkName this
  /\ pose this' = pose this
  /\ poseFrame this' = poseFrame this
  /\ axis this' = axis this
  /\ frameGraph this' = frameGraph this
  /\ frameVertexId this' = frameVertexId this
  /\ sdf this' = sdf this.
Proof.
  unfold Load_type.
  destruct (snd (Get_string e "type" "")); [|done].
  cbv zeta. generalize (transform_tolower (fst (Get_string e "type" ""))).
  intros low.
  repeat match goal with
         | |- context [String.eqb low ?n] => destruct (String.eqb low n)
         end; done.
Qed.

(** [Load_wire] without a graph: one more diagnostic, nothing else. *)
Lemma Load_wire_None (n : string) (errs : Errors) (this : JointPrivate)
    (σ : gmap GraphPtr FrameGraph) :
  Load_wire n None errs this σ
  = Returns (errs ++ [missing_graph_error], this, σ).
Proof. reflexivity. Qed.

(** [Load_wire] with a graph: the vertex of the joint is appended, and
    the outcome hangs on the lookup of the pose frame name. *)
Lemma Load_wire_Some (n : string) (fg : GraphPtr) (g : FrameGraph)
    (errs : Errors) (this : JointPrivate) (σ : gmap GraphPtr FrameGraph) :
  σ !! fg = Some g ->
  let v := mkVertex n (Matrix4d_of_Pose3d (pose this)) (NextVertexId g) in
  Load_wire n (Some fg) errs this σ
  = match Vertices (poseFrame this)
            (mkFrameGraph (vertices g ++ [v]) (edges g)) with
    | [] => UndefinedBehaviour
    | (first, _) :: _ =>
        Returns
          (errs,
           set_frameGraph (Some fg) (set_frameVertexId (Vertex_Id v) this),
           <[fg := mkFrameGraph (vertices g ++ [v])
                     (edges g ++ [mkEdge (first, Vertex_Id v) (-1);
                                  mkEdge (Vertex_Id v, first) 1])]> σ)
    end.
Proof.
  intros Hg v. unfold Load_wire. rewrite Hg.
  unfold AddVertex. fold v. members.
  set (g1 := mkFrameGraph (vertices g ++ [v]) (edges g)).
  destruct (Vertices (poseFrame this) g1) as [|[first pv] rest] eqn:Hlookup;
    [done|].
  assert (Hfirst : HasVertex first g1 = true)
    by (by eapply Vertices_head_HasVertex).
  assert (Hnew : HasVertex (Vertex_Id v) g1 = true).
  { apply HasVertex_elem_of. simpl. apply elem_of_app. right. left. }
  unfold AddEdge at 2. cbn [fst snd]. rewrite Hfirst.
  change (NextVertexId g) with (Vertex_Id v). rewrite Hnew.
  cbn [andb]. unfold AddEdge. cbn [fst snd].
  unfold HasVertex, VertexFromId in *. cbn [vertices edges] in *.
  rewrite Hfirst, Hnew. cbn [andb].
  by rewrite <- app_assoc.
Qed.

(** What a returning [Load_wire] leaves in the members of the joint. *)
Lemma Load_wire_members (n : string) (fg : option GraphPtr) (errs : Errors)
    (this : JointPrivate) (σ : gmap GraphPtr FrameGraph)
    (errs' : Errors) (this' : JointPrivate) (σ' : gmap GraphPtr FrameGraph) :
  Load_wire n fg errs this σ = Returns (errs', this', σ') ->
  parentLinkName this' = parentLinkName this
  /\ childLinkName this' = childLinkName this
  /\ type this' = type this
  /\ pose this' = pose this
  /\ poseFrame this' = poseFrame this
  /\ axis this' = axis this
  /\ sdf this' = sdf this
  /\ exists extra, errs' = errs ++ extra.
Proof.
  destruct fg as [fg|].
  - unfold Load_wire. destruct (σ !! fg) as [g|]; [|done].
    destruct (AddVertex _ _ g) as [v g1]. members.
    destruct (Vertices (poseFrame this) g1) as [|[first pv] rest]; [done|].
    intros [= <- <- <-]. members. repeat split. exists [].
    by rewrite app_nil_r.
  - rewrite Load_wire_None. intros [= <- <- <-]. repeat split. eauto.
Qed.

(** A load of a [<joint>] element is its three blocks in a row. *)
Lemma Load_joint (e : Element) (fg : option GraphPtr) (this : JointPrivate)
    (σ : gmap GraphPtr FrameGraph) :
  String.eqb (GetName e) "joint" = true ->
  Load e fg this σ
  = Load_wire (fst (loadName e)) fg
      (snd (Load_type e (snd (fst (Load_elements e (set_sdf (Some e) this) [])))
              (snd (Load_elements e (set_sdf (Some e) this) []))))
      (fst (Load_type e (snd (fst (Load_elements e (set_sdf (Some e) this) [])))
              (snd (Load_elements e (set_sdf (Some e) this) []))))
      σ.
Proof.
  intros Hkind. unfold Load. rewrite Hkind. cbn [negb].
  pose proof (Load_elements_members e (set_sdf (Some e) this) [])
    as (Hname & _).
  destruct (Load_elements e (set_sdf (Some e) this) []) as [[n this1] errs1].
  cbn [fst snd] in *. subst n.
  by destruct (Load_type e this1 errs1) as [this2 errs2].
Qed.

(** The members of the joint after a returning load of a [<joint>]
    element, in terms of what the element holds. *)
Lemma Load_returns_members (e : Element) (fg : option GraphPtr)
    (this : JointPrivate) (σ : gmap GraphPtr FrameGraph)
    (errs : Errors) (this' : JointPrivate) (σ' : gmap GraphPtr FrameGraph) :
  String.eqb (GetName e) "joint" = true ->
  Load e fg this σ = Returns (errs, this', σ') ->
  let parsed := snd (loadPose e (pose this) (poseFrame this)) in
  parentLinkName this'
  = (if snd (Get_string e "parent" "") then fst (Get_string e "parent" "")
     else parentLinkName this)
  /\ childLinkName this'
     = (if snd (Get_string e "child" "") then fst (Get_string e "child" "")
        else childLinkName this)
  /\ poseFrame this'
     = (if string_empty parsed then childLinkName this' else parsed)
  /\ pose this' = snd (fst (loadPose e (pose this) (poseFrame this)))
  /\ sdf this' = Some e.
Proof.
  intros Hkind Hload parsed. rewrite (Load_joint _ _ _ _ Hkind) in Hload.
  apply Load_wire_members in Hload as (Hp & Hc & _ & Hq & Hf & _ & Hs & _).
  pose proof (Load_elements_members e (set_sdf (Some e) this) [])
    as (_ & Hc1 & Hp1 & Hf1 & Hq1 & _ & _ & _ & Hs1).
  destruct (Load_elements e (set_sdf (Some e) this) []) as [[n this1] errs1].
  members.
  pose proof (Load_type_members e this1 errs1)
    as (Hp2 & Hc2 & Hq2 & Hf2 & _ & _ & _ & Hs2).
  destruct (Load_type e this1 errs1) as [this2 errs2].
  members. subst parsed. repeat split; try congruence.
  by rewrite Hf, Hf2, Hf1, Hc, Hc2.
Qed.

(** The graph pointer and the vertex id of the joint as they enter the
    wiring block of a load of a [<joint>] element. *)
Lemma Load_blocks_graph_members (e : Element) (this : JointPrivate) :
  let this2 :=
    fst (Load_type e (snd (fst (Load_elements e (set_sdf (Some e) this) [])))
           (snd (Load_elements e (set_sdf (Some e) this) []))) in
  frameGraph this2 = frameGraph this
  /\ frameVertexId this2 = frameVertexId this.
Proof.
  pose proof (Load_elements_members e (set_sdf (Some e) this) [])
    as (_ & _ & _ & _ & _ & _ & Hg1 & Hv1 & _).
  destruct (Load_elements e (set_sdf (Some e) this) []) as [[n this1] errs1].
  members.
  pose proof (Load_type_members e this1 errs1)
    as (_ & _ & _ & _ & _ & Hg2 & Hv2 & _).
  destruct (Load_type e this1 errs1) as [this2 errs2].
  members. split; congruence.
Qed.




End LoadFacts.

(** ** The claims on [Joint] *)

Section Claims.
Context `{AxisLoader}.

(** C4: an element whose kind tag is not [joint] makes [Load] return
    exactly one diagnostic, of code [ELEMENT_INCORRECT_TYPE]; the store of
    graphs is returned as it was, and of the joint only the recorded
    element pointer changes: nothing of the element is parsed. *)
Theorem Load_incorrect_element_type (e : Element) (fg : option GraphPtr)
    (this : JointPrivate) (σ : gmap GraphPtr FrameGraph) :
  String.eqb (GetName e) "joint" = false ->
  Load e fg this σ
  = Returns ([incorrect_type_error], set_sdf (Some e) this, σ)
  /\ Code incorrect_type_error = ELEMENT_INCORRECT_TYPE.
Proof.
  intros Hkind. unfold Load. rewrite Hkind. done.
Qed.

(** C6: when [Load] of a [<joint>] element returns, the pose frame of the
    joint is the child link name if the frame name left by the pose
    extraction is empty, and that frame name otherwise; the child link
    name is the one read from the element, or the former one when the
    element has none. *)
Theorem Load_poseFrame_default (e : Element) (fg : option GraphPtr)
    (this : JointPrivate) (σ : gmap GraphPtr FrameGraph)
    (errs : Errors) (this' : JointPrivate) (σ' : gmap GraphPtr FrameGraph) :
  String.eqb (GetName e) "joint" = true ->
  Load e fg this σ = Returns (errs, this', σ') ->
  let parsed := snd (loadPose e (pose this) (poseFrame this)) in
  PoseFrame this'
  = (if string_empty parsed then ChildLinkName this' else parsed)
  /\ ChildLinkName this'
     = (if snd (Get_string e "child" "") then fst (Get_string e "child" "")
        else childLinkName this).
Proof.
  intros Hkind Hload parsed.
  by destruct (Load_returns_members _ _ _ _ _ _ _ Hkind Hload)
    as (_ & ? & ? & _).
Qed.

(** C3, amended: when [Load] of a [<joint>] element returns, the pose
    frame of the joint is empty exactly when both the frame name left by
    the pose extraction and the child link name are empty. *)
Theorem Load_poseFrame_empty_iff (e : Element) (fg : option GraphPtr)
    (this : JointPrivate) (σ : gmap GraphPtr FrameGraph)
    (errs : Errors) (this' : JointPrivate) (σ' : gmap GraphPtr FrameGraph) :
  String.eqb (GetName e) "joint" = true ->
  Load e fg this σ = Returns (errs, this', σ') ->
  string_empty (PoseFrame this')
  = string_empty (snd (loadPose e (pose this) (poseFrame this)))
    && string_empty (ChildLinkName this').
Proof.
  intros Hkind Hload.
  destruct (Load_returns_members _ _ _ _ _ _ _ Hkind Hload)
    as (_ & _ & Hframe & _).
  unfold PoseFrame, ChildLinkName. rewrite Hframe.
  by destruct (string_empty (snd (loadPose e (pose this) (poseFrame this))))
    eqn:Hparsed.
Qed.

(** C10: [SetPoseFrame] returns [false] and leaves the pose frame as it
    was when the string is empty, and returns [true] with the pose frame
    set to the string when it is not; the store is not touched. *)
Theorem SetPoseFrame_result (f : string) (this : JointPrivate)
    (σ : gmap GraphPtr FrameGraph) :
  exists this',
    SetPoseFrame f this σ = Returns (negb (string_empty f), this', σ)
    /\ PoseFrame this' = (if string_empty f then PoseFrame this else f).
Proof.
  unfold SetPoseFrame. destruct (string_empty f); eexists; split; done.
Qed.

(** C9: the setters of the parent and of the child link name return with
    the store of graphs as it was, hence with every vertex, edge and
    payload of every graph unchanged, and change that one name member of
    the joint only. *)
Theorem link_name_setters_frame (name : string) (this : JointPrivate)
    (σ : gmap GraphPtr FrameGraph) :
  (exists this',
     SetParentLinkName name this σ = Returns (tt, this', σ)
     /\ ParentLinkName this' = name
     /\ childLinkName this' = childLinkName this
     /\ type this' = type this
     /\ pose this' = pose this
     /\ poseFrame this' = poseFrame this
     /\ axis this' = axis this
     /\ frameGraph this' = frameGraph this
     /\ frameVertexId this' = frameVertexId this
     /\ sdf this' = sdf this)
  /\ (exists this',
        SetChildLinkName name this σ = Returns (tt, this', σ)
        /\ ChildLinkName this' = name
        /\ parentLinkName this' = parentLinkName this
        /\ type this' = type this
        /\ pose this' = pose this
        /\ poseFrame this' = poseFrame this
        /\ axis this' = axis this
        /\ frameGraph this' = frameGraph this
        /\ frameVertexId this' = frameVertexId this
        /\ sdf this' = sdf this).
Proof.
  split; eexists; (split; [reflexivity|]); done.
Qed.

(** C8: on a joint that holds its vertex in a live graph, [SetPose p]
    returns; afterwards [Pose] gives [p], the joint still holds its
    vertex, and the payload of that vertex is the transform of [p], that
    is, of the stored pose.  The vertex keeps its name, every other id of
    the graph reads what it read before, and the edges are unchanged. *)
Theorem SetPose_updates_vertex (p : Pose3d) (this : JointPrivate)
    (σ : gmap GraphPtr FrameGraph) :
  owns_vertex this σ = true ->
  exists this' fg g g',
    SetPose p this σ = Returns (tt, this', <[fg := g']> σ)
    /\ frameGraph this = Some fg /\ σ !! fg = Some g
    /\ Pose this' = p
    /\ owns_vertex this' (<[fg := g']> σ) = true
    /\ own_payload this' (<[fg := g']> σ) = Some (Matrix4d_of_Pose3d p)
    /\ Name this' (<[fg := g']> σ) = Name this σ
    /\ (forall i, i <> frameVertexId this ->
          VertexFromId i g' = VertexFromId i g)
    /\ edges g' = edges g.
Proof.
  unfold owns_vertex, SetPose, own_payload, Name, deref.
  destruct (frameGraph this) as [fg|] eqn:Hfg; [|done].
  destruct (σ !! fg) as [g|] eqn:Hg; [|done].
  unfold HasVertex. intros Hv. apply bool_decide_eq_true in Hv as [v Hv].
  rewrite Hv.
  exists (set_pose p this), fg, g,
    (SetData (frameVertexId this) (Matrix4d_of_Pose3d p) g).
  members. rewrite Hfg, lookup_insert_eq.
  rewrite (VertexFromId_SetData_eq _ _ _ _ Hv).
  repeat split; try done.
  intros i Hi. apply VertexFromId_SetData_ne. congruence.
Qed.

(** C5, amended: for a [<joint>] element with a type string present, the
    type of the joint after a returning [Load] is the enumeration value
    whose name matches the string without regard to case, [INVALID] when
    none does.  In that last case [Load] appends to the diagnostics a
    diagnostic of code [ATTRIBUTE_INVALID] whose message carries the
    string converted to lower case, and goes on: the wiring block runs on
    these diagnostics, and without a graph [Load] returns them followed
    by the diagnostic of the missing graph. *)
Theorem Load_type_classification (e : Element) (fg : option GraphPtr)
    (this : JointPrivate) (σ : gmap GraphPtr FrameGraph) :
  String.eqb (GetName e) "joint" = true ->
  snd (Get_string e "type" "") = true ->
  let text := fst (Get_string e "type" "") in
  let lowered := transform_tolower text in
  (forall errs this' σ',
      Load e fg this σ = Returns (errs, this', σ') ->
      Type_ this' = classify text)
  /\ (matched text = None ->
      Code (invalid_type_error lowered) = ATTRIBUTE_INVALID
      /\ carries lowered (Message (invalid_type_error lowered)) = true
      /\ (exists this1 errs1,
            type this1 = INVALID
            /\ Load e fg this σ
               = Load_wire (fst (loadName e)) fg
                   (errs1 ++ [invalid_type_error lowered]) this1 σ)
      /\ (forall errs this' σ',
            Load e fg this σ = Returns (errs, this', σ') ->
            Type_ this' = INVALID /\ invalid_type_error lowered ∈ errs)
      /\ (fg = None ->
          exists errs1 this',
            Load e fg this σ
            = Returns (errs1 ++ [invalid_type_error lowered;
                                 missing_graph_error], this', σ))).
Proof.
  intros Hkind Hpresent text lowered.
  rewrite (Load_joint _ _ _ _ Hkind).
  destruct (Load_elements e (set_sdf (Some e) this) []) as [[n this1] errs1].
  members. rewrite (Load_type_present _ _ _ Hpresent). fold text lowered.
  unfold classify. destruct (matched text) as [entry|]; members.
  - split; [|done]. intros errs this' σ' Hload. unfold Type_.
    by apply Load_wire_members in Hload as (_ & _ & -> & _).
  - split.
    { intros errs this' σ' Hload. unfold Type_.
      by apply Load_wire_members in Hload as (_ & _ & -> & _). }
    intros _. split; [done|]. split.
    { apply (carries_append "Joint type of " lowered). }
    split; [by exists (set_type INVALID this1), errs1|]. split.
    + intros errs this' σ' Hload. unfold Type_.
      apply Load_wire_members in Hload
        as (_ & _ & -> & _ & _ & _ & _ & extra & ->).
      split; [done|]. rewrite !elem_of_app, list_elem_of_singleton. auto.
    + intros ->. rewrite Load_wire_None.
      exists errs1, (set_type INVALID this1). by rewrite <- app_assoc.
Qed.

(** C1, amended: when [Load] of a [<joint>] element with a graph returns,
    the graph has gained one vertex, named after the joint and carrying
    the transform of its pose, and the two edges of a complementary pair
    between the new vertex and the first vertex registered under the
    pose frame name of the joint (not the parent link name): marked [-1]
    towards the new vertex and [1] back. *)
Theorem Load_wires_pose_frame (e : Element) (fg : GraphPtr) (g : FrameGraph)
    (this : JointPrivate) (σ : gmap GraphPtr FrameGraph)
    (errs : Errors) (this' : JointPrivate) (σ' : gmap GraphPtr FrameGraph) :
  String.eqb (GetName e) "joint" = true ->
  σ !! fg = Some g ->
  Load e (Some fg) this σ = Returns (errs, this', σ') ->
  let v := mkVertex (fst (loadName e)) (Matrix4d_of_Pose3d (Pose this'))
             (NextVertexId g) in
  exists first pv rest,
    Vertices (PoseFrame this') (mkFrameGraph (vertices g ++ [v]) (edges g))
    = (first, pv) :: rest
    /\ let g' := mkFrameGraph (vertices g ++ [v])
                   (edges g ++ [mkEdge (first, Vertex_Id v) (-1);
                                mkEdge (Vertex_Id v, first) 1]) in
       σ' = <[fg := g']> σ
       /\ frameGraph this' = Some fg
       /\ frameVertexId this' = Vertex_Id v
       /\ wired_to_name (PoseFrame this') (Vertex_Id v) g' = true.
Proof.
  intros Hkind Hg. rewrite (Load_joint _ _ _ _ Hkind).
  rewrite (Load_wire_Some _ _ _ _ _ _ Hg). cbv zeta.
  match goal with
  | |- context [Load_wire] => fail
  | |- context [pose ?t] => generalize t
  end.
  intros this2.
  destruct (Vertices _ _) as [|[first pv] rest] eqn:Hlookup; [done|].
  intros [= <- <- <-]. unfold Pose, PoseFrame. members.
  exists first, pv, rest. split; [exact Hlookup|]. repeat split.
  unfold wired_to_name.
  change (Vertices (poseFrame this2) (mkFrameGraph ?vs ?es))
    with (Vertices (poseFrame this2) (mkFrameGraph vs (edges g))).
  rewrite Hlookup. cbn [existsb fst]. unfold edge_pair.
  rewrite !has_edge_app. unfold has_edge at 2 4. cbn [existsb edges].
  cbn [Edge_Vertices Edge_Data fst snd]. rewrite !N.eqb_refl.
  cbn [andb Z.eqb Pos.eqb orb]. by rewrite !orb_true_r.
Qed.

(** The undefined behaviour of [Load] in general: with a graph in which
    no vertex is found under the pose frame name, once the vertex of the
    joint itself is in, [parentVertices.begin()] is dereferenced on an
    empty result. *)
Lemma Load_empty_lookup_undefined (e : Element) (fg : GraphPtr)
    (g : FrameGraph) (this : JointPrivate) (σ : gmap GraphPtr FrameGraph) :
  String.eqb (GetName e) "joint" = true ->
  σ !! fg = Some g ->
  let this2 :=
    fst (Load_type e (snd (fst (Load_elements e (set_sdf (Some e) this) [])))
           (snd (Load_elements e (set_sdf (Some e) this) []))) in
  Vertices (poseFrame this2)
    (snd (AddVertex (fst (loadName e)) (Matrix4d_of_Pose3d (pose this2)) g))
  = [] ->
  Load e (Some fg) this σ = UndefinedBehaviour.
Proof.
  intros Hkind Hg this2 Hlookup. rewrite (Load_joint _ _ _ _ Hkind).
  rewrite (Load_wire_Some _ _ _ _ _ _ Hg). cbv zeta.
  fold this2. unfold AddVertex in Hlookup. cbn [snd] in Hlookup.
  by rewrite Hlookup.
Qed.

(** C7, amended: [Load] of a [<joint>] element without a graph returns;
    the diagnostic of code [FUNCTION_ARGUMENT_MISSING] is the last of its
    diagnostics; the store of graphs, the graph pointer and the vertex id
    of the joint are as before.  On a joint fresh from its constructor, a
    pose query afterwards fails with [NotFound] when its target frame,
    the argument or else the pose frame of the joint, is not empty, and
    returns the identity pose when it is empty. *)
Theorem Load_without_graph (e : Element) (this : JointPrivate)
    (σ : gmap GraphPtr FrameGraph) :
  String.eqb (GetName e) "joint" = true ->
  exists errs1 this',
    Load e None this σ = Returns (errs1 ++ [missing_graph_error], this', σ)
    /\ Code missing_graph_error = FUNCTION_ARGUMENT_MISSING
    /\ frameGraph this' = frameGraph this
    /\ frameVertexId this' = frameVertexId this
    /\ (forall σ0 : gmap GraphPtr FrameGraph,
          this = fst (Joint_new σ0) -> σ = snd (Joint_new σ0) ->
          forall frame : string,
            let target :=
              if string_empty frame then PoseFrame this' else frame in
            PoseInFrame frame this' σ
            = if string_empty target
              then Returns (Matrix4d_Pose Matrix4d_Identity)
              else Fails NotFound).
Proof.
  intros Hkind. rewrite (Load_joint _ _ _ _ Hkind).
  destruct (Load_blocks_graph_members e this) as [Hg Hv]. revert Hg Hv.
  cbv zeta. rewrite Load_wire_None.
  match goal with
  | |- context [Returns (?errs ++ _, ?t, _)] =>
      generalize t; generalize errs
  end.
  intros errs2 this2 Hg Hv. exists errs2, this2.
  split; [done|]. split; [done|]. split; [done|]. split; [done|].
  intros σ0 -> -> frame.
  set (target := if string_empty frame then PoseFrame this2 else frame).
  unfold PoseInFrame, Name, deref. rewrite Hg, Hv.
  unfold Joint_new. cbn [fst snd AddVertex frameGraph frameVertexId].
  rewrite lookup_insert_eq.
  unfold VertexFromId, FrameGraph_empty, NextVertexId.
  cbn [vertices foldr app List.find Vertex_Id N.eqb Vertex_Name].
  fold target. unfold poseInFrame, Vertices.
  cbn [vertices List.filter Vertex_Name String.eqb map].
  destruct target as [|c target']; reflexivity.
Qed.

End Claims.

(** ** Further properties of [Joint] *)

Section LoadBlocks.
Context `{AxisLoader}.

(** The diagnostics and the axes that [Load_elements] leaves. *)
Lemma Load_elements_diagnostics (e : Element) (this : JointPrivate)
    (errs : Errors) :
  snd (Load_elements e this errs)
  = errs ++ name_diagnostics e ++ parent_diagnostics e ++ child_diagnostics e
    ++ axis_diagnostics e "axis" ++ axis_diagnostics e "axis2"
  /\ axis (snd (fst (Load_elements e this errs)))
     = (loaded_axis e "axis" (fst (axis this)),
        loaded_axis e "axis2" (snd (axis this))).
Proof.
  unfold Load_elements, name_diagnostics, parent_diagnostics,
    child_diagnostics, axis_diagnostics, loaded_axis.
  destruct (loadName e) as [n [|]];
    destruct (Get_string e "parent" "") as [pn [|]];
    destruct (Get_string e "child" "") as [cn [|]]; members;
    destruct (loadPose e (pose this) (poseFrame this)) as [[ok p] f];
    members; destruct (string_empty f); members;
    destruct (GetElement e "axis") as [a1|];
    try destruct (JointAxis_Load a1) as [? ?];
    destruct (GetElement e "axis2") as [a2|];
    try destruct (JointAxis_Load a2) as [? ?];
    members; cbn [app]; rewrite <- ?app_assoc, ?app_nil_r;
    (split; [reflexivity|]); by destruct (axis this).
Qed.

(** The type and the diagnostics that [Load_type] leaves. *)
Lemma Load_type_diagnostics (e : Element) (this : JointPrivate)
    (errs : Errors) :
  snd (Load_type e this errs) = errs ++ type_diagnostics e
  /\ type (fst (Load_type e this errs))
     = (if snd (Get_string e "type" "")
        then classify (fst (Get_string e "type" ""))
        else type this).
Proof.
  unfold type_diagnostics, classify.
  destruct (snd (Get_string e "type" "")) eqn:Hpresent.
  - rewrite (Load_type_present _ _ _ Hpresent).
    destruct (matched _); members; by rewrite ?app_nil_r.
  - unfold Load_type. by rewrite Hpresent.
Qed.

(** The diagnostics that a returning [Load_wire] adds. *)
Lemma Load_wire_diagnostics (n : string) (fg : option GraphPtr)
    (errs : Errors) (this : JointPrivate) (σ : gmap GraphPtr FrameGraph)
    (errs' : Errors) (this' : JointPrivate) (σ' : gmap GraphPtr FrameGraph) :
  Load_wire n fg errs this σ = Returns (errs', this', σ') ->
  errs' = errs ++ graph_diagnostics fg.
Proof.
  destruct fg as [fg|].
  - destruct (σ !! fg) as [g|] eqn:Hg;
      [|unfold Load_wire; by rewrite Hg].
    rewrite (Load_wire_Some _ _ _ _ _ _ Hg). cbv zeta.
    destruct (Vertices _ _) as [|[first pv] rest]; [done|].
    intros [= <- _ _]. by rewrite app_nil_r.
  - rewrite Load_wire_None. by intros [= <- _ _].
Qed.

(** The diagnostics, the type and the axes after a returning load of a
    [<joint>] element. *)
Lemma Load_returns_diagnostics (e : Element) (fg : option GraphPtr)
    (this : JointPrivate) (σ : gmap GraphPtr FrameGraph)
    (errs : Errors) (this' : JointPrivate) (σ' : gmap GraphPtr FrameGraph) :
  String.eqb (GetName e) "joint" = true ->
  Load e fg this σ = Returns (errs, this', σ') ->
  errs = Load_diagnostics e fg
  /\ type this'
     = (if snd (Get_string e "type" "")
        then classify (fst (Get_string e "type" ""))
        else type this)
  /\ axis this'
     = (loaded_axis e "axis" (fst (axis this)),
        loaded_axis e "axis2" (snd (axis this))).
Proof.
  intros Hkind Hload. rewrite (Load_joint _ _ _ _ Hkind) in Hload.
  pose proof (Load_wire_diagnostics _ _ _ _ _ _ _ _ Hload) as Herrs.
  apply Load_wire_members in Hload as (_ & _ & Ht & _ & _ & Ha & _).
  pose proof (Load_elements_members e (set_sdf (Some e) this) [])
    as (_ & _ & _ & _ & _ & Ht1 & _).
  pose proof (Load_elements_diagnostics e (set_sdf (Some e) this) [])
    as (He1 & Ha1).
  destruct (Load_elements e (set_sdf (Some e) this) []) as [[n this1] errs1].
  members.
  pose proof (Load_type_diagnostics e this1 errs1) as (He2 & Ht2).
  pose proof (Load_type_members e this1 errs1)
    as (_ & _ & _ & _ & Ha2 & _).
  destruct (Load_type e this1 errs1) as [this2 errs2].
  members. subst errs errs2 errs1. unfold Load_diagnostics.
  rewrite Ht, Ht2, Ht1, Ha, Ha2, Ha1. cbn [app].
  by rewrite <- !app_assoc.
Qed.

End LoadBlocks.

Section GraphGrowth.
Context `{PoseMath}.

(** Appending vertices does not change what an id already in the graph
    resolves to. *)
Lemma VertexFromId_app_old (i : VertexId) (vs ws : list Vertex)
    (es es' : list Edge) :
  HasVertex i (mkFrameGraph vs es) = true ->
  VertexFromId i (mkFrameGraph (vs ++ ws) es')
  = VertexFromId i (mkFrameGraph vs es).
Proof.
  unfold HasVertex, VertexFromId. cbn [vertices]. intros Hi.
  apply bool_decide_eq_true in Hi as [v Hv]. rewrite Hv.
  induction vs as [|w vs IH]; [done|]. simpl in *.
  destruct (N.eqb (Vertex_Id w) i); [done|]. by apply IH.
Qed.

(** The vertex that [AddVertex] appends is the one its id resolves to. *)
Lemma VertexFromId_app_new (v : Vertex) (g : FrameGraph) (es : list Edge) :
  Vertex_Id v = NextVertexId g ->
  VertexFromId (Vertex_Id v) (mkFrameGraph (vertices g ++ [v]) es) = Some v.
Proof.
  intros Hid. unfold VertexFromId. cbn [vertices].
  assert (Hfresh : forall w, w ∈ vertices g ->
                     N.eqb (Vertex_Id w) (Vertex_Id v) = false).
  { intros w Hw. apply N.eqb_neq. pose proof (NextVertexId_fresh g w Hw).
    lia. }
  induction (vertices g) as [|w vs IH]; simpl.
  - by rewrite N.eqb_refl.
  - rewrite (Hfresh w) by left. apply IH. intros u Hu. apply Hfresh.
    by right.
Qed.

(** An id in use is not the next id. *)
Lemma HasVertex_not_next (i : VertexId) (g : FrameGraph) :
  HasVertex i g = true -> i <> NextVertexId g.
Proof.
  unfold HasVertex, VertexFromId. intros Hi.
  apply bool_decide_eq_true in Hi as [v Hv].
  apply find_some in Hv as [Hin Hid]. apply N.eqb_eq in Hid.
  apply list_elem_of_In in Hin.
  pose proof (NextVertexId_fresh g v Hin). lia.
Qed.

(** The lookup by name over a graph with one more vertex. *)
Lemma Vertices_app_new (name : string) (v : Vertex) (vs : list Vertex)
    (es : list Edge) :
  Vertices name (mkFrameGraph (vs ++ [v]) es)
  = Vertices name (mkFrameGraph vs es)
    ++ (if String.eqb (Vertex_Name v) name then [(Vertex_Id v, v)] else []).
Proof.
  unfold Vertices. cbn [vertices]. rewrite List.filter_app, map_app.
  cbn [List.filter]. by destruct (String.eqb (Vertex_Name v) name).
Qed.

Lemma Vertices_nil_existsb (name : string) (g : FrameGraph) :
  Vertices name g = []
  <-> existsb (fun v => String.eqb (Vertex_Name v) name) (vertices g) = false.
Proof.
  unfold Vertices. induction (vertices g) as [|w vs IH]; simpl; [done|].
  destruct (String.eqb (Vertex_Name w) name); simpl; [|exact IH].
  split; discriminate.
Qed.

Lemma VertexFromId_SetVertexName_eq i n g v :
  VertexFromId i g = Some v ->
  VertexFromId i (SetVertexName i n g)
  = Some (mkVertex n (Vertex_Data v) (Vertex_Id v)).
Proof.
  unfold VertexFromId, SetVertexName. simpl. intros Hv.
  by apply (find_update_vertex_eq i
              (fun v => mkVertex n (Vertex_Data v) (Vertex_Id v))).
Qed.

Lemma VertexFromId_SetVertexName_ne i j n g :
  i <> j -> VertexFromId j (SetVertexName i n g) = VertexFromId j g.
Proof.
  unfold VertexFromId, SetVertexName. simpl. intros Hij.
  by apply find_update_vertex_ne.
Qed.

End GraphGrowth.

Section Coverage.
Context `{AxisLoader}.

(** X1: the constructor puts the joint alone in a graph of its own, at a
    pointer the store did not hold: the graphs of the store stay as they
    were, the joint answers the empty name, its vertex carries the identity
    and its members have their defaults. *)
Theorem Joint_new_own_graph (σ : gmap GraphPtr FrameGraph) :
  exists fg,
    frameGraph (fst (Joint_new σ)) = Some fg
    /\ σ !! fg = None
    /\ (forall l, l <> fg -> snd (Joint_new σ) !! l = σ !! l)
    /\ snd (Joint_new σ) !! fg
       = Some (mkFrameGraph [mkVertex "" Matrix4d_Identity 0%N] [])
    /\ Name (fst (Joint_new σ)) (snd (Joint_new σ)) = Returns ""
    /\ own_payload (fst (Joint_new σ)) (snd (Joint_new σ))
       = Some Matrix4d_Identity
    /\ Type_ (fst (Joint_new σ)) = INVALID
    /\ PoseFrame (fst (Joint_new σ)) = ""
    /\ (forall i, Axis i (fst (Joint_new σ)) = None).
Proof.
  exists (fresh (dom σ)). unfold Joint_new, Name, own_payload, deref.
  cbn [fst snd AddVertex frameGraph frameVertexId].
  rewrite lookup_insert_eq. repeat split; try done.
  - apply not_elem_of_dom, is_fresh.
  - intros l Hl. by rewrite lookup_insert_ne.
  - intros i. unfold Axis. cbn [axis fst snd]. by destruct (N.eqb _ _).
Qed.

(** X2: on a joint that holds its vertex, [SetName n] returns, leaves the
    private data of the joint as it was, and [Name] then answers [n]; the
    payload of the vertex is unchanged and the joint still holds it. *)
Theorem SetName_then_Name (n : string) (this : JointPrivate)
    (σ : gmap GraphPtr FrameGraph) :
  owns_vertex this σ = true ->
  exists σ',
    SetName n this σ = Returns (tt, this, σ')
    /\ Name this σ' = Returns n
    /\ own_payload this σ' = own_payload this σ
    /\ owns_vertex this σ' = true.
Proof.
  unfold owns_vertex, SetName, Name, own_payload, deref.
  destruct (frameGraph this) as [fg|] eqn:Hfg; [|done].
  destruct (σ !! fg) as [g|] eqn:Hg; [|done].
  unfold HasVertex. intros Hv. apply bool_decide_eq_true in Hv as [v Hv].
  rewrite Hv. eexists. split; [reflexivity|]. rewrite lookup_insert_eq.
  rewrite (VertexFromId_SetVertexName_eq _ _ _ _ Hv).
  repeat split; try done; try (apply bool_decide_eq_true; eauto).
Qed.

(** X3: after a returning load of a [<joint>] element, slot 0 holds the
    axis loaded from the [axis] child and slot 1 the one loaded from the
    [axis2] child; a slot whose child the element lacks keeps the axis it
    held before the load.  [Axis] clamps its index: every index from 1 on
    reads slot 1. *)
Theorem Load_axes (e : Element) (fg : option GraphPtr)
    (this : JointPrivate) (σ : gmap GraphPtr FrameGraph)
    (errs : Errors) (this' : JointPrivate) (σ' : gmap GraphPtr FrameGraph) :
  String.eqb (GetName e) "joint" = true ->
  Load e fg this σ = Returns (errs, this', σ') ->
  Axis 0 this' = loaded_axis e "axis" (Axis 0 this)
  /\ forall i : N, (1 <= i)%N ->
       Axis i this' = loaded_axis e "axis2" (Axis 1 this).
Proof.
  intros Hkind Hload.
  destruct (Load_returns_diagnostics _ _ _ _ _ _ _ Hkind Hload)
    as (_ & _ & Haxis).
  unfold Axis. rewrite Haxis. cbn [fst snd N.min N.eqb N.compare].
  split; [done|]. intros i Hi. rewrite N.min_r by done. done.
Qed.

(** X4: the diagnostics of a returning load of a [<joint>] element are
    those of its blocks in the order of the blocks: name, parent, child,
    first axis, second axis, type, graph.  They are a function of the
    element and of whether a graph was handed in, not of the joint or of
    the store. *)
Theorem Load_diagnostics_in_order (e : Element) (fg : option GraphPtr)
    (this : JointPrivate) (σ : gmap GraphPtr FrameGraph)
    (errs : Errors) (this' : JointPrivate) (σ' : gmap GraphPtr FrameGraph) :
  String.eqb (GetName e) "joint" = true ->
  Load e fg this σ = Returns (errs, this', σ') ->
  errs
  = name_diagnostics e ++ parent_diagnostics e ++ child_diagnostics e
    ++ axis_diagnostics e "axis" ++ axis_diagnostics e "axis2"
    ++ type_diagnostics e ++ graph_diagnostics fg.
Proof.
  intros Hkind Hload.
  by destruct (Load_returns_diagnostics _ _ _ _ _ _ _ Hkind Hload) as [-> _].
Qed.

(** X5: [Load] returns an empty list of diagnostics only for a [<joint>]
    element loaded with a graph, whose name, parent, child and type are
    all present, whose type matches the enumeration and whose axes load
    without diagnostics. *)
Theorem Load_no_diagnostics (e : Element) (fg : option GraphPtr)
    (this : JointPrivate) (σ : gmap GraphPtr FrameGraph)
    (this' : JointPrivate) (σ' : gmap GraphPtr FrameGraph) :
  Load e fg this σ = Returns ([], this', σ') ->
  String.eqb (GetName e) "joint" = true
  /\ is_Some fg
  /\ snd (loadName e) = true
  /\ snd (Get_string e "parent" "") = true
  /\ snd (Get_string e "child" "") = true
  /\ snd (Get_string e "type" "") = true
  /\ is_Some (matched (fst (Get_string e "type" "")))
  /\ axis_diagnostics e "axis" = []
  /\ axis_diagnostics e "axis2" = [].
Proof.
  intros Hload. destruct (String.eqb (GetName e) "joint") eqn:Hkind.
  - destruct (Load_returns_diagnostics _ _ _ _ _ _ _ Hkind Hload)
      as (Herrs & _).
    symmetry in Herrs. unfold Load_diagnostics in Herrs.
    repeat (apply app_eq_nil in Herrs as [? Herrs]).
    unfold name_diagnostics, parent_diagnostics, child_diagnostics,
      type_diagnostics, graph_diagnostics in *.
    destruct fg; [|done]. destruct (snd (loadName e)); [|done].
    destruct (snd (Get_string e "parent" "")); [|done].
    destruct (snd (Get_string e "child" "")); [|done].
    destruct (snd (Get_string e "type" "")); [|done].
    destruct (matched _); [|done]. repeat split; eauto.
  - unfold Load in Hload. rewrite Hkind in Hload. done.
Qed.

(** X6: a returning load of a [<joint>] element overwrites the parent
    link name and the type only when the element holds them and keeps the
    former values otherwise; when the element has no [pose] child the pose
    is kept too, and the pose frame is the former one unless that was
    empty, in which case it is the child link name. *)
Theorem Load_keeps_what_is_missing (e : Element) (fg : option GraphPtr)
    (this : JointPrivate) (σ : gmap GraphPtr FrameGraph)
    (errs : Errors) (this' : JointPrivate) (σ' : gmap GraphPtr FrameGraph) :
  String.eqb (GetName e) "joint" = true ->
  Load e fg this σ = Returns (errs, this', σ') ->
  ParentLinkName this'
  = (if snd (Get_string e "parent" "") then fst (Get_string e "parent" "")
     else ParentLinkName this)
  /\ Type_ this'
     = (if snd (Get_string e "type" "")
        then classify (fst (Get_string e "type" ""))
        else Type_ this)
  /\ (GetElement e "pose" = None ->
      Pose this' = Pose this
      /\ PoseFrame this'
         = (if string_empty (PoseFrame this) then ChildLinkName this'
            else PoseFrame this)).
Proof.
  intros Hkind Hload.
  destruct (Load_returns_diagnostics _ _ _ _ _ _ _ Hkind Hload)
    as (_ & Htype & _).
  destruct (Load_returns_members _ _ _ _ _ _ _ Hkind Hload)
    as (Hparent & _ & Hframe & Hpose & _).
  split; [exact Hparent|]. split; [exact Htype|].
  intros Hnone. unfold Pose, PoseFrame, ChildLinkName.
  rewrite Hpose, Hframe. unfold loadPose. by rewrite Hnone.
Qed.

(** The pose frame with which a load of a [<joint>] element enters its
    wiring block. *)
Lemma Load_blocks_frame (e : Element) (this : JointPrivate) :
  poseFrame
    (fst (Load_type e (snd (fst (Load_elements e (set_sdf (Some e) this) [])))
            (snd (Load_elements e (set_sdf (Some e) this) []))))
  = loaded_frame e this.
Proof.
  pose proof (Load_elements_members e (set_sdf (Some e) this) [])
    as (_ & Hc1 & _ & Hf1 & _).
  destruct (Load_elements e (set_sdf (Some e) this) []) as [[n this1] errs1].
  members.
  pose proof (Load_type_members e this1 errs1) as (_ & _ & _ & Hf2 & _).
  destruct (Load_type e this1 errs1) as [this2 errs2].
  members. unfold loaded_frame, loaded_child. by rewrite Hf2, Hf1, Hc1.
Qed.

(** The store and the graph members of the joint after a returning load of
    a [<joint>] element into a graph: one vertex more, with the next id. *)
Lemma Load_graph_result (e : Element) (fg : GraphPtr) (g : FrameGraph)
    (this : JointPrivate) (σ : gmap GraphPtr FrameGraph)
    (errs : Errors) (this' : JointPrivate) (σ' : gmap GraphPtr FrameGraph) :
  String.eqb (GetName e) "joint" = true ->
  σ !! fg = Some g ->
  Load e (Some fg) this σ = Returns (errs, this', σ') ->
  exists es',
    σ' = <[fg := mkFrameGraph
                   (vertices g
                    ++ [mkVertex (fst (loadName e))
                          (Matrix4d_of_Pose3d (pose this')) (NextVertexId g)])
                   es']> σ
    /\ frameGraph this' = Some fg
    /\ frameVertexId this' = NextVertexId g.
Proof.
  intros Hkind Hg. rewrite (Load_joint _ _ _ _ Hkind).
  rewrite (Load_wire_Some _ _ _ _ _ _ Hg). cbv zeta.
  match goal with
  | |- context [Load_wire] => fail
  | |- context [pose ?t] => generalize t
  end.
  intros this2.
  destruct (Vertices _ _) as [|[first pv] rest]; [done|].
  intros [= <- <- <-]. members. eauto.
Qed.

(** X7: a load of a [<joint>] element into a graph returns exactly when
    the pose frame of the joint is the name of a vertex of the graph or the
    name of the joint itself, whose vertex is added before the lookup;
    otherwise its behaviour is undefined. *)
Theorem Load_defined_iff_frame_registered (e : Element) (fg : GraphPtr)
    (g : FrameGraph) (this : JointPrivate) (σ : gmap GraphPtr FrameGraph) :
  String.eqb (GetName e) "joint" = true ->
  σ !! fg = Some g ->
  (frame_registered (fst (loadName e)) (loaded_frame e this) g = true ->
   exists errs this' σ',
     Load e (Some fg) this σ = Returns (errs, this', σ'))
  /\ (frame_registered (fst (loadName e)) (loaded_frame e this) g = false ->
      Load e (Some fg) this σ = UndefinedBehaviour).
Proof.
  intros Hkind Hg. rewrite (Load_joint _ _ _ _ Hkind).
  rewrite (Load_wire_Some _ _ _ _ _ _ Hg). cbv zeta.
  rewrite Load_blocks_frame. rewrite Vertices_app_new.
  cbn [Vertex_Name Vertex_Id]. unfold frame_registered.
  pose proof (Vertices_nil_existsb (loaded_frame e this)
                (mkFrameGraph (vertices g) (edges g))) as Hnil.
  cbn [vertices] in Hnil.
  destruct (Vertices (loaded_frame e this)
              (mkFrameGraph (vertices g) (edges g)))
    as [|[first pv] rest].
  - rewrite (proj1 Hnil eq_refl). cbn [orb app].
    destruct (String.eqb (fst (loadName e)) (loaded_frame e this)).
    + split; [eauto|done].
    + split; done.
  - split; [cbn [app]; eauto|].
    destruct (existsb _ (vertices g)); [done|].
    discriminate (proj2 Hnil eq_refl).
Qed.

(** X8: after a returning load of a [<joint>] element into a graph, [Name]
    answers the name read from the element, the joint holds its vertex, and
    the payload of that vertex is the transform of the pose of the
    joint. *)
Theorem Load_then_Name (e : Element) (fg : GraphPtr) (g : FrameGraph)
    (this : JointPrivate) (σ : gmap GraphPtr FrameGraph)
    (errs : Errors) (this' : JointPrivate) (σ' : gmap GraphPtr FrameGraph) :
  String.eqb (GetName e) "joint" = true ->
  σ !! fg = Some g ->
  Load e (Some fg) this σ = Returns (errs, this', σ') ->
  Name this' σ' = Returns (fst (loadName e))
  /\ own_payload this' σ' = Some (Matrix4d_of_Pose3d (Pose this'))
  /\ owns_vertex this' σ' = true.
Proof.
  intros Hkind Hg Hload.
  destruct (Load_graph_result _ _ _ _ _ _ _ _ Hkind Hg Hload)
    as (es' & -> & Hptr & Hid).
  unfold Name, own_payload, owns_vertex, deref, HasVertex.
  rewrite Hptr, Hid, lookup_insert_eq.
  pose proof (VertexFromId_app_new
                (mkVertex (fst (loadName e)) (Matrix4d_of_Pose3d (pose this'))
                   (NextVertexId g)) g es' eq_refl) as Hv.
  cbn [Vertex_Id] in Hv. rewrite Hv.
  repeat split; try done; try (apply bool_decide_eq_true; eauto).
Qed.

(** X9: a load without a graph returns for every element, of any kind,
    with the store as it was; the name read from the element is recorded
    nowhere: [Name] answers what it answered before the load, and the
    payload of the vertex of the joint is what it was, whatever pose the
    element holds. *)
Theorem Load_without_graph_keeps_name (e : Element) (this : JointPrivate)
    (σ : gmap GraphPtr FrameGraph) :
  exists errs this',
    Load e None this σ = Returns (errs, this', σ)
    /\ Name this' σ = Name this σ
    /\ own_payload this' σ = own_payload this σ.
Proof.
  destruct (String.eqb (GetName e) "joint") eqn:Hkind.
  - rewrite (Load_joint _ _ _ _ Hkind), Load_wire_None.
    destruct (Load_blocks_graph_members e this) as [Hptr Hid].
    eexists _, _. split; [reflexivity|].
    unfold Name, own_payload, deref. by rewrite Hptr, Hid.
  - unfold Load. rewrite Hkind. cbn [negb]. eexists _, _.
    split; [reflexivity|]. done.
Qed.

(** X10: a returning load by one joint leaves every other joint that holds
    its vertex as it was in the graph: that joint still holds its vertex,
    under the same name and with the same payload.  When the load went into
    a graph, the vertex of the loaded joint is not the vertex of the other
    one; taking the joint itself before the load as the other one, a
    reload never lands on the vertex of the load before. *)
Theorem Load_leaves_other_joints (e : Element) (fg : option GraphPtr)
    (this that : JointPrivate) (σ : gmap GraphPtr FrameGraph)
    (errs : Errors) (this' : JointPrivate) (σ' : gmap GraphPtr FrameGraph) :
  owns_vertex that σ = true ->
  Load e fg this σ = Returns (errs, this', σ') ->
  owns_vertex that σ' = true
  /\ Name that σ' = Name that σ
  /\ own_payload that σ' = own_payload that σ
  /\ (String.eqb (GetName e) "joint" = true -> is_Some fg ->
      same_vertex this' that = false).
Proof.
  intros Hthat Hload.
  destruct (String.eqb (GetName e) "joint") eqn:Hkind; cycle 1.
  { unfold Load in Hload. rewrite Hkind in Hload. cbn [negb] in Hload.
    injection Hload as <- <- <-. done. }
  destruct fg as [fg|]; cycle 1.
  { rewrite (Load_joint _ _ _ _ Hkind), Load_wire_None in Hload.
    injection Hload as <- <- <-. repeat split; try done.
    all: by intros _ [? ?]. }
  destruct (σ !! fg) as [g|] eqn:Hg; cycle 1.
  { rewrite (Load_joint _ _ _ _ Hkind) in Hload. unfold Load_wire in Hload.
    by rewrite Hg in Hload. }
  destruct (Load_graph_result _ _ _ _ _ _ _ _ Hkind Hg Hload)
    as (es' & -> & Hptr & Hid).
  revert Hthat. unfold owns_vertex, Name, own_payload, deref, same_vertex.
  rewrite Hptr, Hid.
  destruct (frameGraph that) as [l|]; [|done].
  destruct (decide (fg = l)) as [<-|Hne].
  - rewrite Hg, lookup_insert_eq. destruct g as [vs es]. intros Hown.
    unfold HasVertex. cbn [vertices].
    rewrite (VertexFromId_app_old _ vs _ es es' Hown).
    unfold HasVertex in Hown. repeat split; try done.
    intros _ _. rewrite bool_decide_eq_true_2 by done. cbn [andb].
    apply N.eqb_neq. intros Heq.
    by apply (HasVertex_not_next (frameVertexId that) (mkFrameGraph vs es)).
  - rewrite lookup_insert_ne by done. intros Hown. repeat split; try done.
    intros _ _. rewrite bool_decide_eq_false_2; [done|congruence].
Qed.

(** X11: [SetPose] and [SetName] by one joint leave every joint that does
    not hold the same vertex under the name and with the payload it
    had. *)
Theorem mutators_leave_other_joints (this that : JointPrivate)
    (σ : gmap GraphPtr FrameGraph) :
  same_vertex this that = false ->
  (forall p this' σ',
      SetPose p this σ = Returns (tt, this', σ') ->
      Name that σ' = Name that σ
      /\ own_payload that σ' = own_payload that σ)
  /\ (forall n this' σ',
        SetName n this σ = Returns (tt, this', σ') ->
        Name that σ' = Name that σ
        /\ own_payload that σ' = own_payload that σ).
Proof.
  unfold same_vertex, SetPose, SetName, Name, own_payload, deref.
  intros Hdiff.
  destruct (frameGraph this) as [fg|] eqn:Hfg; [|split; intros; done].
  destruct (σ !! fg) as [g|] eqn:Hg; [|split; intros; done].
  destruct (VertexFromId (frameVertexId this) g) as [v|];
    [|split; intros; done].
  assert (Hids : frameGraph that = Some fg ->
                 frameVertexId this <> frameVertexId that).
  { intros Hsame. rewrite Hsame, bool_decide_eq_true_2 in Hdiff by done.
    cbn [andb] in Hdiff. by apply N.eqb_neq in Hdiff. }
  split.
  - intros p this' σ' [= <- <-].
    destruct (frameGraph that) as [l|]; [|done].
    destruct (decide (fg = l)) as [<-|Hne].
    + rewrite lookup_insert_eq, Hg.
      by rewrite (VertexFromId_SetData_ne _ _ _ _ (Hids eq_refl)).
    + by rewrite lookup_insert_ne.
  - intros n this' σ' [= <- <-].
    destruct (frameGraph that) as [l|]; [|done].
    destruct (decide (fg = l)) as [<-|Hne].
    + rewrite lookup_insert_eq, Hg.
      by rewrite (VertexFromId_SetVertexName_ne _ _ _ _ (Hids eq_refl)).
    + by rewrite lookup_insert_ne.
Qed.

(** A load of a [<joint>] element without a graph returns with the store
    and the graph members of the joint as they were. *)
Lemma Load_without_graph_keeps_members (e : Element) (this : JointPrivate)
    (σ : gmap GraphPtr FrameGraph) :
  String.eqb (GetName e) "joint" = true ->
  exists errs this',
    Load e None this σ = Returns (errs, this', σ)
    /\ frameGraph this' = frameGraph this
    /\ frameVertexId this' = frameVertexId this.
Proof.
  intros Hkind. rewrite (Load_joint _ _ _ _ Hkind), Load_wire_None.
  destruct (Load_blocks_graph_members e this) as [Hptr Hid]. eauto.
Qed.


(** X13: a pose query with the empty frame is the query in the pose frame
    of the joint, whatever the joint and the store. *)
Theorem PoseInFrame_empty_is_PoseFrame (this : JointPrivate)
    (σ : gmap GraphPtr FrameGraph) :
  PoseInFrame "" this σ = PoseInFrame (PoseFrame this) this σ.
Proof.
  unfold PoseInFrame. cbn [string_empty].
  by destruct (string_empty (PoseFrame this)) eqn:Hempty.
Qed.

(** X14: whenever [Load] returns, [Element] gives the element that was
    handed to it, also when the load was refused for its kind. *)
Theorem Load_records_element (e : Element) (fg : option GraphPtr)
    (this : JointPrivate) (σ : gmap GraphPtr FrameGraph)
    (errs : Errors) (this' : JointPrivate) (σ' : gmap GraphPtr FrameGraph) :
  Load e fg this σ = Returns (errs, this', σ') ->
  Joint_Element this' = Some e.
Proof.
  intros Hload. destruct (String.eqb (GetName e) "joint") eqn:Hkind.
  - by destruct (Load_returns_members _ _ _ _ _ _ _ Hkind Hload)
      as (_ & _ & _ & _ & ?).
  - unfold Load in Hload. rewrite Hkind in Hload. cbn [negb] in Hload.
    by injection Hload as _ <- _.
Qed.

(** [loadPose] either writes the pose and the frame of the element,
    whatever it is given, or hands back what it is given. *)
Lemma loadPose_cases (e : Element) :
  (forall p f, loadPose e p f = (false, p, f))
  \/ (exists P F, forall p f, loadPose e p f = (true, P, F)).
Proof.
  unfold loadPose. destruct (GetElement e "pose") as [c|]; [|by left].
  destruct (snd (Get_string c "frame" "")); cbv zeta;
    destruct (snd (Get_Pose3d c "" Pose3d_Zero)); eauto.
Qed.

Lemma JointPrivate_ext (a b : JointPrivate) :
  parentLinkName a = parentLinkName b ->
  childLinkName a = childLinkName b ->
  type a = type b ->
  pose a = pose b ->
  poseFrame a = poseFrame b ->
  axis a = axis b ->
  frameGraph a = frameGraph b ->
  frameVertexId a = frameVertexId b ->
  sdf a = sdf b ->
  a = b.
Proof. destruct a, b. cbn. by intros -> -> -> -> -> -> -> -> ->. Qed.

(** X15: a load of a [<joint>] element without a graph, done a second time
    on the joint the first one returned, returns the same diagnostics and
    leaves the joint as the first one left it. *)
Theorem Load_without_graph_twice (e : Element) (this : JointPrivate)
    (σ : gmap GraphPtr FrameGraph)
    (errs : Errors) (this' : JointPrivate) (σ' : gmap GraphPtr FrameGraph) :
  String.eqb (GetName e) "joint" = true ->
  Load e None this σ = Returns (errs, this', σ') ->
  Load e None this' σ' = Returns (errs, this', σ').
Proof.
  intros Hkind Hload.
  destruct (Load_without_graph_keeps_members e this' σ' Hkind)
    as (errs2 & this2 & Hload2 & Hptr2 & Hid2).
  destruct (Load_without_graph_keeps_members e this σ Hkind)
    as (errs1 & this1 & Hload1 & Hptr1 & Hid1).
  rewrite Hload in Hload1. injection Hload1 as <- <- <-.
  rewrite Hload2.
  destruct (Load_returns_diagnostics _ _ _ _ _ _ _ Hkind Hload)
    as (-> & Ht & Ha).
  destruct (Load_returns_diagnostics _ _ _ _ _ _ _ Hkind Hload2)
    as (-> & Ht2 & Ha2).
  destruct (Load_returns_members _ _ _ _ _ _ _ Hkind Hload)
    as (Hp & Hc & Hf & Hq & Hs).
  destruct (Load_returns_members _ _ _ _ _ _ _ Hkind Hload2)
    as (Hp2 & Hc2 & Hf2 & Hq2 & Hs2).
  assert (Hsame : this2 = this'); [|by rewrite Hsame].
  apply JointPrivate_ext; try congruence.
  - rewrite Hp2, Hp. by destruct (snd (Get_string e "parent" "")).
  - rewrite Hc2, Hc. by destruct (snd (Get_string e "child" "")).
  - rewrite Ht2, Ht. by destruct (snd (Get_string e "type" "")).
  - rewrite Hq2, Hq.
    destruct (loadPose_cases e) as [Hkeep|(P & F & Hset)].
    + by rewrite !Hkeep.
    + by rewrite !Hset.
  - assert (Hchild : childLinkName this2 = childLinkName this').
    { rewrite Hc2, Hc. by destruct (snd (Get_string e "child" "")). }
    rewrite Hf2, Hchild.
    destruct (loadPose_cases e) as [Hkeep|(P & F & Hset)].
    + rewrite Hkeep. cbn [snd]. rewrite Hf, Hkeep. cbn [snd].
      destruct (string_empty (poseFrame this)) eqn:Hempty;
        [|by rewrite Hempty].
      by destruct (string_empty (childLinkName this')).
    + rewrite Hset. cbn [snd]. by rewrite Hf, Hset.
  - rewrite Ha2, Ha. cbn [fst snd]. unfold loaded_axis.
    by destruct (GetElement e "axis"), (GetElement e "axis2").
Qed.

(** X16: when no vertex of the graph carries the pose frame of the joint
    but the joint itself is named like its pose frame, the load returns
    and wires the joint to itself: the two edges are loops on the vertex
    of the joint. *)
Theorem Load_wires_joint_to_itself (e : Element) (fg : GraphPtr)
    (g : FrameGraph) (this : JointPrivate) (σ : gmap GraphPtr FrameGraph) :
  String.eqb (GetName e) "joint" = true ->
  σ !! fg = Some g ->
  existsb (fun v => String.eqb (Vertex_Name v) (loaded_frame e this))
    (vertices g) = false ->
  String.eqb (fst (loadName e)) (loaded_frame e this) = true ->
  exists errs this',
    Load e (Some fg) this σ
    = Returns
        (errs, this',
         <[fg := mkFrameGraph
                   (vertices g
                    ++ [mkVertex (fst (loadName e))
                          (Matrix4d_of_Pose3d (Pose this')) (NextVertexId g)])
                   (edges g
                    ++ [mkEdge (NextVertexId g, NextVertexId g) (-1);
                        mkEdge (NextVertexId g, NextVertexId g) 1])]> σ)
    /\ frameVertexId this' = NextVertexId g.
Proof.
  intros Hkind Hg Hnone Hself. rewrite (Load_joint _ _ _ _ Hkind).
  rewrite (Load_wire_Some _ _ _ _ _ _ Hg). cbv zeta.
  rewrite Load_blocks_frame, Vertices_app_new. cbn [Vertex_Name Vertex_Id].
  rewrite Hself.
  rewrite (proj2 (Vertices_nil_existsb (loaded_frame e this)
                    (mkFrameGraph (vertices g) (edges g))) Hnone).
  cbn [app].
  match goal with
  | |- context [Returns (?errs, set_frameGraph _ (set_frameVertexId _ ?t), _)]
    => generalize t; generalize errs
  end.
  intros errs2 this2.
  exists errs2,
    (set_frameGraph (Some fg) (set_frameVertexId (NextVertexId g) this2)).
  done.
Qed.

End Coverage.

(** ** Runs on concrete inputs *)

Import Translations.

Lemma Load_incorrect_element_type_witness :
  Load link_element (Some 1%positive) (fresh_joint store_AB)
    (fresh_store store_AB)
  = Returns ([incorrect_type_error],
             set_sdf (Some link_element) (fresh_joint store_AB),
             fresh_store store_AB)
  /\ Code incorrect_type_error = ELEMENT_INCORRECT_TYPE.
Proof. apply Load_incorrect_element_type. reflexivity. Defined.

Lemma Load_poseFrame_default_witness :
  exists errs this' σ',
    Load (joint_AB "fixed") None (fresh_joint store_AB) (fresh_store store_AB)
    = Returns (errs, this', σ')
    /\ PoseFrame this' = "B" /\ ChildLinkName this' = "B".
Proof.
  eexists _, _, _. split; [reflexivity|].
  exact (Load_poseFrame_default (joint_AB "fixed") None
           (fresh_joint store_AB) (fresh_store store_AB) _ _ _
           eq_refl eq_refl).
Defined.

(** The same load with [<pose frame="A">]: the frame read is kept. *)
Example Load_poseFrame_kept :
  match Load joint_AB_posed None (fresh_joint store_AB) (fresh_store store_AB)
  with
  | Returns (_, this', _) =>
      PoseFrame this' = "A" /\ Pose this' = (1, 2, 3)%Z
  | _ => False
  end.
Proof. vm_compute. done. Qed.

(** C3 as stated fails: a [<joint>] with neither child link nor pose is
    loaded, [Load] returns, and the pose frame of the joint is empty. *)
Lemma Load_poseFrame_empty_counterexample :
  match Load joint_no_child None (fresh_joint ∅) (fresh_store ∅) with
  | Returns (_, this', _) => PoseFrame this' = ""
  | _ => False
  end.
Proof. vm_compute. reflexivity. Qed.

Lemma Load_poseFrame_empty_iff_witness :
  exists errs this' σ',
    Load (joint_AB "fixed") None (fresh_joint ∅) (fresh_store ∅)
    = Returns (errs, this', σ')
    /\ string_empty (PoseFrame this') = false.
Proof.
  eexists _, _, _. split; [reflexivity|].
  exact (Load_poseFrame_empty_iff (joint_AB "fixed") None
           (fresh_joint ∅) (fresh_store ∅) _ _ _ eq_refl eq_refl).
Defined.

(** C5 as stated fails: the type string [Hinge] is outside the
    enumeration, [Load] returns, and no diagnostic carries [Hinge]; the one
    on the type carries [hinge]. *)
Lemma Load_type_text_counterexample :
  match Load (joint_AB "Hinge") None (fresh_joint ∅) (fresh_store ∅) with
  | Returns (errs, this', _) =>
      Type_ this' = INVALID
      /\ existsb (fun d => carries "Hinge" (Message d)) errs = false
      /\ errs = [invalid_type_error "hinge"; missing_graph_error]
  | _ => False
  end.
Proof. vm_compute. done. Qed.

Lemma Load_type_classification_witness :
  exists errs1 this',
    Load (joint_AB "Hinge") None (fresh_joint ∅) (fresh_store ∅)
    = Returns (errs1 ++ [invalid_type_error "hinge"; missing_graph_error],
               this', fresh_store ∅).
Proof.
  destruct (Load_type_classification (joint_AB "Hinge") None
              (fresh_joint ∅) (fresh_store ∅) eq_refl eq_refl)
    as [_ Hnone].
  destruct (Hnone eq_refl) as (_ & _ & _ & _ & Hreturns).
  exact (Hreturns eq_refl).
Defined.

(** The match is blind to case: [FiXeD] is the fixed joint. *)
Example Load_type_mixed_case :
  match Load (joint_AB "FiXeD") None (fresh_joint ∅) (fresh_store ∅) with
  | Returns (errs, this', _) =>
      Type_ this' = FIXED /\ errs = [missing_graph_error]
  | _ => False
  end.
Proof. vm_compute. done. Qed.

(** C1 as stated fails: the graph holds a frame [A] for the parent link and
    a frame [B] for the child link; after the load of a joint from [A] to
    [B] no edge pair joins a vertex named [A] to the vertex of the joint;
    the pair joins it to the vertex named [B], the pose frame. *)
Lemma Load_wires_parent_counterexample :
  match Load (joint_AB "fixed") (Some 1%positive) (fresh_joint store_AB)
          (fresh_store store_AB) with
  | Returns (_, this', σ') =>
      match σ' !! 1%positive with
      | Some g' =>
          ParentLinkName this' = "A"
          /\ wired_to_name (ParentLinkName this') (frameVertexId this') g'
             = false
          /\ wired_to_name "B" (frameVertexId this') g' = true
          /\ edges g' = [mkEdge (1, 2)%N (-1); mkEdge (2, 1)%N 1]
      | None => False
      end
  | _ => False
  end.
Proof. vm_compute. done. Qed.

Lemma Load_wires_pose_frame_witness :
  Load (joint_AB "fixed") (Some 1%positive) (fresh_joint store_AB)
    (fresh_store store_AB) = Returns loaded_AB
  /\ frameGraph (snd (fst loaded_AB)) = Some 1%positive
  /\ frameVertexId (snd (fst loaded_AB)) = 2%N
  /\ wired_to_name "B" 2%N
       (mkFrameGraph
          [mkVertex "A" (0, 0, 0)%Z 0%N; mkVertex "B" (0, 0, 1)%Z 1%N;
           mkVertex "j" (0, 0, 0)%Z 2%N]
          [mkEdge (1, 2)%N (-1); mkEdge (2, 1)%N 1]) = true.
Proof.
  assert (Hload :
    Load (joint_AB "fixed") (Some 1%positive) (fresh_joint store_AB)
      (fresh_store store_AB)
    = Returns (fst (fst loaded_AB), snd (fst loaded_AB), snd loaded_AB))
    by (vm_compute; reflexivity).
  assert (Hgraph : fresh_store store_AB !! 1%positive = Some graph_AB)
    by (vm_compute; reflexivity).
  split; [exact Hload|].
  destruct (Load_wires_pose_frame (joint_AB "fixed") 1%positive graph_AB
              (fresh_joint store_AB) (fresh_store store_AB) _ _ _
              eq_refl Hgraph Hload)
    as (first & pv & rest & Hlookup & _ & Hptr & Hid & Hwired).
  split; [exact Hptr|]. split; [exact Hid|].
  injection Hlookup as <- _ _. exact Hwired.
Defined.

(** C2: the graph handed in holds no frame at all; the lookup of the pose
    frame [B] finds nothing and [Load] runs into undefined behaviour. *)
Lemma Load_no_match_undefined :
  Load (joint_AB "fixed") (Some 1%positive) (fresh_joint store_empty_graph)
    (fresh_store store_empty_graph)
  = UndefinedBehaviour.
Proof. vm_compute. reflexivity. Qed.

(** C7 as stated fails: a [<link>] element is loaded without a graph;
    [Load] returns the diagnostic of the kind mismatch alone, none of code
    [FUNCTION_ARGUMENT_MISSING]; the pose query with an empty frame then
    returns the identity pose. *)
Lemma Load_without_graph_counterexample :
  match Load link_element None (fresh_joint ∅) (fresh_store ∅) with
  | Returns (errs, this', σ') =>
      errs = [incorrect_type_error]
      /\ existsb (fun d => bool_decide (Code d = FUNCTION_ARGUMENT_MISSING))
           errs = false
      /\ PoseInFrame "" this' σ' = Returns (0, 0, 0)%Z
  | _ => False
  end.
Proof. vm_compute. done. Qed.

(** For a [<joint>] element without child link the diagnostic is there and
    the same query returns the identity pose too. *)
Example Load_without_graph_identity_query :
  match Load joint_no_child None (fresh_joint ∅) (fresh_store ∅) with
  | Returns (errs, this', σ') =>
      last errs = Some missing_graph_error
      /\ PoseInFrame "" this' σ' = Returns (0, 0, 0)%Z
      /\ PoseInFrame "A" this' σ' = Fails NotFound
  | _ => False
  end.
Proof. vm_compute. done. Qed.

Lemma Load_without_graph_witness :
  exists errs1 this',
    Load (joint_AB "fixed") None (fresh_joint ∅) (fresh_store ∅)
    = Returns (errs1 ++ [missing_graph_error], this', fresh_store ∅)
    /\ PoseInFrame "" this' (fresh_store ∅) = Fails NotFound.
Proof.
  destruct (Load_without_graph (joint_AB "fixed") (fresh_joint ∅)
              (fresh_store ∅) eq_refl)
    as (errs1 & this' & Hload & _ & _ & _ & Hquery).
  exists errs1, this'. split; [exact Hload|].
  assert (Hframe : PoseFrame this' = "B").
  { destruct (Load_returns_members (joint_AB "fixed") None (fresh_joint ∅)
                (fresh_store ∅) _ _ _ eq_refl Hload)
      as (_ & Hc & Hf & _).
    unfold PoseFrame. rewrite Hf, Hc. vm_compute. reflexivity. }
  pose proof (Hquery ∅ eq_refl eq_refl "") as Hq. cbv zeta in Hq.
  cbn [string_empty] in Hq. rewrite Hframe in Hq. exact Hq.
Defined.

Lemma SetPose_updates_vertex_witness :
  exists this' σ',
    SetPose (1, 2, 3)%Z (fresh_joint ∅) (fresh_store ∅)
    = Returns (tt, this', σ')
    /\ Pose this' = (1, 2, 3)%Z
    /\ own_payload this' σ' = Some (1, 2, 3)%Z.
Proof.
  assert (Howns : owns_vertex (fresh_joint ∅) (fresh_store ∅) = true)
    by (vm_compute; reflexivity).
  destruct (@SetPose_updates_vertex math axes (1, 2, 3)%Z (fresh_joint ∅)
              (fresh_store ∅) Howns)
    as (this' & fg & g & g' & Hset & _ & _ & Hpose & _ & Hpayload & _).
  exists this', (<[fg := g']> (fresh_store ∅)). done.
Defined.

(** ** Runs for the further properties *)

Import Scenes.

Lemma loaded_AB_eq :
  Load (joint_AB "fixed") (Some 1%positive) (fresh_joint store_AB)
    (fresh_store store_AB)
  = Returns (fst (fst loaded_AB), snd (fst loaded_AB), snd loaded_AB).
Proof. vm_compute. reflexivity. Qed.

Lemma loaded_BA_eq :
  Load joint_BA_axis (Some 1%positive) second_joint second_store
  = Returns (fst (fst loaded_BA), snd (fst loaded_BA), snd loaded_BA).
Proof. vm_compute. reflexivity. Qed.

Lemma loaded_AB_alone_eq :
  Load (joint_AB "fixed") None (fresh_joint ∅) (fresh_store ∅)
  = Returns (fst (fst loaded_AB_alone), snd (fst loaded_AB_alone),
             snd loaded_AB_alone).
Proof. vm_compute. reflexivity. Qed.

Lemma loaded_no_child_eq :
  Load joint_no_child None (fresh_joint ∅) (fresh_store ∅)
  = Returns (fst (fst loaded_no_child), snd (fst loaded_no_child),
             snd loaded_no_child).
Proof. vm_compute. reflexivity. Qed.

Lemma second_store_graph :
  second_store !! 1%positive = Some graph_after_first.
Proof. vm_compute. reflexivity. Qed.

Lemma fresh_store_AB_graph :
  fresh_store store_AB !! 1%positive = Some graph_AB.
Proof. vm_compute. reflexivity. Qed.

Lemma fresh_store_empty_graph :
  fresh_store store_empty_graph !! 1%positive = Some FrameGraph_empty.
Proof. vm_compute. reflexivity. Qed.

Lemma SetName_then_Name_witness :
  exists σ',
    SetName "elbow" (fresh_joint ∅) (fresh_store ∅)
    = Returns (tt, fresh_joint ∅, σ')
    /\ Name (fresh_joint ∅) σ' = Returns "elbow".
Proof.
  assert (Howns : owns_vertex (fresh_joint ∅) (fresh_store ∅) = true)
    by (vm_compute; reflexivity).
  destruct (@SetName_then_Name math axes "elbow" (fresh_joint ∅)
              (fresh_store ∅) Howns) as (σ' & Hset & Hname & _).
  exists σ'. split; [exact Hset|exact Hname].
Defined.

Lemma Load_axes_witness :
  Axis 0 (snd (fst loaded_BA)) = Some (mkElement "axis" ∅ [])
  /\ Axis 7 (snd (fst loaded_BA)) = None.
Proof.
  destruct (@Load_axes math axes joint_BA_axis (Some 1%positive) second_joint
              second_store _ _ _ eq_refl loaded_BA_eq) as [Hfirst Hrest].
  split.
  - rewrite Hfirst. vm_compute. reflexivity.
  - rewrite (Hrest 7%N); [vm_compute; reflexivity|]. vm_compute. discriminate.
Defined.

Lemma Load_diagnostics_in_order_witness :
  fst (fst loaded_no_child)
  = [mkError ELEMENT_MISSING "The child element is missing.";
     missing_graph_error].
Proof.
  rewrite (@Load_diagnostics_in_order math axes joint_no_child None
             (fresh_joint ∅) (fresh_store ∅) _ _ _ eq_refl
             loaded_no_child_eq).
  vm_compute. reflexivity.
Defined.

Lemma Load_no_diagnostics_witness :
  snd (loadName (joint_AB "fixed")) = true
  /\ is_Some (matched (fst (Get_string (joint_AB "fixed") "type" ""))).
Proof.
  assert (Hload :
    Load (joint_AB "fixed") (Some 1%positive) (fresh_joint store_AB)
      (fresh_store store_AB)
    = Returns ([], snd (fst loaded_AB), snd loaded_AB))
    by (vm_compute; reflexivity).
  destruct (@Load_no_diagnostics math axes _ _ _ _ _ _ Hload)
    as (_ & _ & Hname & _ & _ & _ & Htype & _).
  split; [exact Hname|exact Htype].
Defined.

Lemma Load_keeps_what_is_missing_witness :
  ParentLinkName (snd (fst loaded_no_child)) = "A"
  /\ Pose (snd (fst loaded_no_child)) = (0, 0, 0)%Z.
Proof.
  destruct (@Load_keeps_what_is_missing math axes joint_no_child None
              (fresh_joint ∅) (fresh_store ∅) _ _ _ eq_refl
              loaded_no_child_eq) as (Hparent & _ & Hpose).
  split.
  - rewrite Hparent. vm_compute. reflexivity.
  - destruct (Hpose eq_refl) as [-> _]. reflexivity.
Defined.

Lemma Load_defined_iff_frame_registered_witness :
  Load (joint_AB "fixed") (Some 1%positive) (fresh_joint store_empty_graph)
    (fresh_store store_empty_graph)
  = UndefinedBehaviour
  /\ exists errs this' σ',
       Load (joint_AB "fixed") (Some 1%positive) (fresh_joint store_AB)
         (fresh_store store_AB) = Returns (errs, this', σ').
Proof.
  split.
  - apply (@Load_defined_iff_frame_registered math axes (joint_AB "fixed")
             1%positive FrameGraph_empty (fresh_joint store_empty_graph)
             (fresh_store store_empty_graph) eq_refl
             fresh_store_empty_graph).
    vm_compute. reflexivity.
  - apply (@Load_defined_iff_frame_registered math axes (joint_AB "fixed")
             1%positive graph_AB (fresh_joint store_AB)
             (fresh_store store_AB) eq_refl fresh_store_AB_graph).
    vm_compute. reflexivity.
Defined.

Lemma Load_then_Name_witness :
  Name first_joint (snd loaded_AB) = Returns "j"
  /\ own_payload first_joint (snd loaded_AB) = Some (0, 0, 0)%Z.
Proof.
  destruct (@Load_then_Name math axes (joint_AB "fixed") 1%positive graph_AB
              (fresh_joint store_AB) (fresh_store store_AB) _ _ _
              eq_refl fresh_store_AB_graph loaded_AB_eq)
    as (Hname & Hpayload & _).
  split; [exact Hname|exact Hpayload].
Defined.

Lemma Load_leaves_other_joints_witness :
  Name first_joint (snd loaded_BA) = Name first_joint second_store
  /\ same_vertex (snd (fst loaded_BA)) first_joint = false.
Proof.
  assert (Howns : owns_vertex first_joint second_store = true)
    by (vm_compute; reflexivity).
  destruct (@Load_leaves_other_joints math axes joint_BA_axis
              (Some 1%positive) second_joint first_joint second_store _ _ _
              Howns loaded_BA_eq) as (_ & Hname & _ & Hdiff).
  split; [exact Hname|]. apply Hdiff; [reflexivity|]. by exists 1%positive.
Defined.

Lemma mutators_leave_other_joints_witness :
  match SetPose (4, 5, 6)%Z (snd (fst loaded_BA)) (snd loaded_BA) with
  | Returns (_, _, σ') =>
      Name first_joint σ' = Name first_joint (snd loaded_BA)
      /\ own_payload first_joint σ'
         = own_payload first_joint (snd loaded_BA)
  | _ => False
  end.
Proof.
  assert (Hdiff : same_vertex (snd (fst loaded_BA)) first_joint = false)
    by (vm_compute; reflexivity).
  destruct (@SetPose math axes (4, 5, 6)%Z (snd (fst loaded_BA))
              (snd loaded_BA))
    as [[[[] this'] σ']|f|] eqn:Hset.
  - exact (proj1 (@mutators_leave_other_joints math axes
                    (snd (fst loaded_BA)) first_joint (snd loaded_BA) Hdiff)
             _ _ _ Hset).
  - vm_compute in Hset. discriminate Hset.
  - vm_compute in Hset. discriminate Hset.
Defined.


Lemma Load_records_element_witness :
  Joint_Element (set_sdf (Some link_element) (fresh_joint ∅))
  = Some link_element.
Proof.
  assert (Hload :
    Load link_element None (fresh_joint ∅) (fresh_store ∅)
    = Returns ([incorrect_type_error],
               set_sdf (Some link_element) (fresh_joint ∅), fresh_store ∅))
    by (vm_compute; reflexivity).
  exact (@Load_records_element math axes _ _ _ _ _ _ _ Hload).
Defined.

Lemma Load_without_graph_twice_witness :
  Load (joint_AB "fixed") None (snd (fst loaded_AB_alone))
    (snd loaded_AB_alone)
  = Returns (fst (fst loaded_AB_alone), snd (fst loaded_AB_alone),
             snd loaded_AB_alone).
Proof.
  exact (@Load_without_graph_twice math axes (joint_AB "fixed")
           (fresh_joint ∅) (fresh_store ∅) _ _ _ eq_refl loaded_AB_alone_eq).
Defined.

Lemma Load_wires_joint_to_itself_witness :
  exists errs this',
    Load joint_named_B (Some 1%positive) (fresh_joint store_empty_graph)
      (fresh_store store_empty_graph)
    = Returns
        (errs, this',
         <[1%positive :=
             mkFrameGraph [mkVertex "B" (Matrix4d_of_Pose3d (Pose this')) 0%N]
               [mkEdge (0, 0)%N (-1); mkEdge (0, 0)%N 1]]>
           (fresh_store store_empty_graph))
    /\ frameVertexId this' = 0%N.
Proof.
  assert (Hnone :
    existsb
      (fun v => String.eqb (Vertex_Name v)
                  (loaded_frame joint_named_B (fresh_joint store_empty_graph)))
      (vertices FrameGraph_empty) = false) by (vm_compute; reflexivity).
  assert (Hself :
    String.eqb (fst (loadName joint_named_B))
      (loaded_frame joint_named_B (fresh_joint store_empty_graph)) = true)
    by (vm_compute; reflexivity).
  exact (@Load_wires_joint_to_itself math axes joint_named_B 1%positive
           FrameGraph_empty (fresh_joint store_empty_graph)
           (fresh_store store_empty_graph) eq_refl fresh_store_empty_graph
           Hnone Hself).
Defined.
